(** * CV Analyzer backend: the HTTP handlers of [backend/main.py]

    A shallow embedding of the four request handlers [upload_cv],
    [get_cv_analysis], [update_cv_info] and [list_cvs], over an explicit
    world made of the upload directory and the three tables the handlers
    read and write, followed by the properties of the handlers.

    Python values are embedded as [pyval]; strings are over code points
    below 256; floating-point numbers are outside the embedding. *)

From Stdlib Require Import ZArith Ascii Decimal DecimalString DecimalZ DecimalPos Lia.
From Stdlib Require String.
From stdpp Require Import gmap strings list fin_maps.

Local Open Scope Z_scope.

(** ** Python values *)

(** The values a JSON document denotes in Python: [None], [bool], [int],
    [str], [list] and [dict] (a [dict] keeps its insertion order, so it is
    an association list here). *)
#[warnings="-register-all"]
Inductive pyval : Type :=
| PNone
| PBool (b : bool)
| PInt (z : Z)
| PStr (s : string)
| PList (l : list pyval)
| PDict (d : list (string * pyval)).

(** [d.get(key, default)] on a [dict]. *)
Fixpoint dict_get (d : list (string * pyval)) (key : string) (default : pyval) : pyval :=
  match d with
  | [] => default
  | (k, v) :: d' => if String.eqb k key then v else dict_get d' key default
  end.

(** Python truthiness, as used by [x if cond else y]. *)
Definition truthy (v : pyval) : bool :=
  match v with
  | PNone => false
  | PBool b => b
  | PInt z => negb (z =? 0)
  | PStr s => negb (String.eqb s "")
  | PList l => match l with [] => false | _ => true end
  | PDict d => match d with [] => false | _ => true end
  end.

Definition is_dict (v : pyval) : bool :=
  match v with PDict _ => true | _ => false end.

(** Induction on values that also covers the values inside lists and
    dicts. *)
Section pyval_induction.
Variable P : pyval -> Prop.
Hypothesis HNone : P PNone.
Hypothesis HBool : forall b, P (PBool b).
Hypothesis HInt : forall z, P (PInt z).
Hypothesis HStr : forall s, P (PStr s).
Hypothesis HList : forall l, Forall P l -> P (PList l).
Hypothesis HDict : forall d, Forall (fun kv => P (snd kv)) d -> P (PDict d).

Fixpoint pyval_nested_ind (v : pyval) : P v :=
  match v with
  | PNone => HNone
  | PBool b => HBool b
  | PInt z => HInt z
  | PStr s => HStr s
  | PList l =>
      HList l ((fix go (l : list pyval) : Forall P l :=
                  match l with
                  | [] => @List.Forall_nil _ P
                  | x :: l' => @List.Forall_cons _ P x l' (pyval_nested_ind x) (go l')
                  end) l)
  | PDict d =>
      HDict d ((fix go (d : list (string * pyval)) : Forall (fun kv => P (snd kv)) d :=
                  match d with
                  | [] => @List.Forall_nil _ _
                  | kv :: d' => @List.Forall_cons _ _ kv d' (pyval_nested_ind (snd kv)) (go d')
                  end) d)
  end.
End pyval_induction.

(** ** The [json] module: [json.dumps] and [json.loads] *)

Module Json.

Definition dquote : ascii := "034"%char.
Definition backslash : ascii := "092"%char.

Definition hex_digit (n : N) : ascii :=
  match n with
  | 0 => "0" | 1 => "1" | 2 => "2" | 3 => "3" | 4 => "4" | 5 => "5"
  | 6 => "6" | 7 => "7" | 8 => "8" | 9 => "9" | 10 => "a" | 11 => "b"
  | 12 => "c" | 13 => "d" | 14 => "e" | _ => "f"
  end%N%char.

(** [ESCAPE_DCT] of the encoder with [ensure_ascii=True]: the two-character
    escapes, and [\u00xx] for every other character outside [' '..'~']. *)
Definition escape_char (c : ascii) : string :=
  if Ascii.eqb c dquote then String backslash (String dquote EmptyString)
  else if Ascii.eqb c backslash then String backslash (String backslash EmptyString)
  else if Ascii.eqb c "008" then String backslash "b"
  else if Ascii.eqb c "012" then String backslash "f"
  else if Ascii.eqb c "010" then String backslash "n"
  else if Ascii.eqb c "013" then String backslash "r"
  else if Ascii.eqb c "009" then String backslash "t"
  else
    let n := N_of_ascii c in
    if ((n <? 32) || (126 <? n))%N then
      String backslash
        (String "u" (String "0" (String "0"
           (String (hex_digit (n / 16)) (String (hex_digit (n mod 16)) EmptyString)))))
    else String c EmptyString.

Fixpoint escape (s : string) : string :=
  match s with
  | EmptyString => EmptyString
  | String c r => escape_char c +:+ escape r
  end.

Definition quote (s : string) : string :=
  String dquote (escape s +:+ String dquote EmptyString).

Fixpoint join (sep : string) (l : list string) : string :=
  match l with
  | [] => EmptyString
  | [x] => x
  | x :: l' => x +:+ sep +:+ join sep l'
  end.

(** [json.dumps(v)] with the default separators [", "] and [": "]. *)
Fixpoint dumps (v : pyval) : string :=
  match v with
  | PNone => "null"
  | PBool true => "true"
  | PBool false => "false"
  | PInt z => NilEmpty.string_of_int (Z.to_int z)
  | PStr s => quote s
  | PList l => "[" +:+ join ", " (List.map dumps l) +:+ "]"
  | PDict d =>
      "{" +:+ join ", " (List.map (fun kv => quote (fst kv) +:+ ": " +:+ dumps (snd kv)) d) +:+ "}"
  end.

(** *** Decoding *)

Fixpoint skip_ws (s : string) : string :=
  match s with
  | String c r =>
      if Ascii.eqb c " " || Ascii.eqb c "009" || Ascii.eqb c "010" || Ascii.eqb c "013"
      then skip_ws r else s
  | EmptyString => EmptyString
  end.

Definition hex_value (c : ascii) : option N :=
  let n := N_of_ascii c in
  if ((48 <=? n) && (n <=? 57))%N then Some (n - 48)%N
  else if ((97 <=? n) && (n <=? 102))%N then Some (n - 87)%N
  else if ((65 <=? n) && (n <=? 70))%N then Some (n - 55)%N
  else None.

(** [\uXXXX]: only code points below 256 have a character here. *)
Definition unicode_escape (h1 h2 h3 h4 : ascii) : option ascii :=
  a ← hex_value h1; b ← hex_value h2; c ← hex_value h3; d ← hex_value h4;
  if ((a =? 0) && (b =? 0))%N then Some (ascii_of_N (16 * c + d)) else None.

(** The [BACKSLASH] table of the decoder. *)
Definition unescape (e : ascii) : option ascii :=
  if Ascii.eqb e dquote then Some dquote
  else if Ascii.eqb e backslash then Some backslash
  else if Ascii.eqb e "/" then Some "/"%char
  else if Ascii.eqb e "b" then Some "008"%char
  else if Ascii.eqb e "f" then Some "012"%char
  else if Ascii.eqb e "n" then Some "010"%char
  else if Ascii.eqb e "r" then Some "013"%char
  else if Ascii.eqb e "t" then Some "009"%char
  else None.

Definition cons_char (c : ascii) (r : option (string * string)) : option (string * string) :=
  match r with
  | Some (s, rest) => Some (String c s, rest)
  | None => None
  end.

(** [scanstring] in strict mode, started after the opening quote: the
    decoded string and what follows the closing quote. *)
Fixpoint scanstring (s : string) : option (string * string) :=
  match s with
  | EmptyString => None
  | String c r =>
      if Ascii.eqb c dquote then Some (EmptyString, r)
      else if Ascii.eqb c backslash then
        match r with
        | EmptyString => None
        | String e r1 =>
            if Ascii.eqb e "u" then
              match r1 with
              | String h1 (String h2 (String h3 (String h4 r2))) =>
                  match unicode_escape h1 h2 h3 h4 with
                  | Some ch => cons_char ch (scanstring r2)
                  | None => None
                  end
              | _ => None
              end
            else
              match unescape e with
              | Some ch => cons_char ch (scanstring r1)
              | None => None
              end
        end
      else if (N_of_ascii c <? 32)%N then None
      else cons_char c (scanstring r)
  end.

Definition digit_of_char (c : ascii) : option (uint -> uint) :=
  match N_of_ascii c with
  | 48 => Some D0 | 49 => Some D1 | 50 => Some D2 | 51 => Some D3 | 52 => Some D4
  | 53 => Some D5 | 54 => Some D6 | 55 => Some D7 | 56 => Some D8 | 57 => Some D9
  | _ => None
  end%N.

Fixpoint scan_digits (s : string) : uint * string :=
  match s with
  | EmptyString => (Nil, EmptyString)
  | String c r =>
      match digit_of_char c with
      | Some k => let '(d, r') := scan_digits r in (k d, r')
      | None => (Nil, s)
      end
  end.

(** A fraction or an exponent makes the number a float. *)
Definition starts_float (s : string) : bool :=
  match s with
  | String c _ => Ascii.eqb c "." || Ascii.eqb c "e" || Ascii.eqb c "E"
  | EmptyString => false
  end.

(** The integer part of [NUMBER_RE]: a lone zero, or digits that do not
    start with a zero. *)
Definition scan_nat (s : string) : option (Z * string) :=
  let '(d, r) := scan_digits s in
  match d with
  | Nil => None
  | D0 Nil => if starts_float r then None else Some (0, r)
  | D0 _ => None
  | _ => if starts_float r then None else Some (Z.of_uint d, r)
  end.

Definition scan_number (s : string) : option (pyval * string) :=
  match s with
  | String c r =>
      if Ascii.eqb c "-" then ('(z, r') ← scan_nat r; Some (PInt (- z), r'))
      else ('(z, r') ← scan_nat s; Some (PInt z, r'))
  | EmptyString => None
  end.

Fixpoint strip_prefix (p s : string) : option string :=
  match p with
  | EmptyString => Some s
  | String a p' =>
      match s with
      | String b s' => if Ascii.eqb a b then strip_prefix p' s' else None
      | EmptyString => None
      end
  end.

(** [scan_once], [JSONArray] and [JSONObject]; the first argument bounds
    the depth of the recursion. *)
Fixpoint parse_value (n : nat) (s : string) {struct n} : option (pyval * string) :=
  match n with
  | O => None
  | S n =>
      match s with
      | EmptyString => None
      | String c r =>
          if Ascii.eqb c dquote then ('(k, r') ← scanstring r; Some (PStr k, r'))
          else if Ascii.eqb c "[" then
            match skip_ws r with
            | String c' r' =>
                if Ascii.eqb c' "]" then Some (PList [], r')
                else ('(l, r'') ← parse_items n (String c' r'); Some (PList l, r''))
            | EmptyString => None
            end
          else if Ascii.eqb c "{" then
            match skip_ws r with
            | String c' r' =>
                if Ascii.eqb c' "}" then Some (PDict [], r')
                else ('(d, r'') ← parse_pairs n (String c' r'); Some (PDict d, r''))
            | EmptyString => None
            end
          else if Ascii.eqb c "n" then (r' ← strip_prefix "ull" r; Some (PNone, r'))
          else if Ascii.eqb c "t" then (r' ← strip_prefix "rue" r; Some (PBool true, r'))
          else if Ascii.eqb c "f" then (r' ← strip_prefix "alse" r; Some (PBool false, r'))
          else scan_number s
      end
  end
with parse_items (n : nat) (s : string) {struct n} : option (list pyval * string) :=
  match n with
  | O => None
  | S n =>
      '(v, r) ← parse_value n s;
      match skip_ws r with
      | String c r' =>
          if Ascii.eqb c "]" then Some ([v], r')
          else if Ascii.eqb c "," then
            ('(vs, r'') ← parse_items n (skip_ws r'); Some (v :: vs, r''))
          else None
      | EmptyString => None
      end
  end
with parse_pairs (n : nat) (s : string) {struct n}
    : option (list (string * pyval) * string) :=
  match n with
  | O => None
  | S n =>
      match s with
      | String q r0 =>
          if Ascii.eqb q dquote then
            '(k, r1) ← scanstring r0;
            match skip_ws r1 with
            | String c r2 =>
                if Ascii.eqb c ":" then
                  '(v, r) ← parse_value n (skip_ws r2);
                  match skip_ws r with
                  | String c' r' =>
                      if Ascii.eqb c' "}" then Some ([(k, v)], r')
                      else if Ascii.eqb c' "," then
                        ('(kvs, r'') ← parse_pairs n (skip_ws r'); Some ((k, v) :: kvs, r''))
                      else None
                  | EmptyString => None
                  end
                else None
            | EmptyString => None
            end
          else None
      | EmptyString => None
      end
  end.

(** [json.loads(s)] on the documents of the embedding: integers for
    numbers, code points below 256 in strings. On these [None] stands for
    a raised [JSONDecodeError]. It is also the result for a document
    outside them (a number with a fraction or an exponent, [NaN],
    [Infinity], an escape above [\u00ff]), which Python decodes: the
    properties below rely on the values this function returns, and on
    [None] only for text that is no JSON at all. A key that occurs twice
    in an object is kept twice, in order. *)
Definition loads (s : string) : option pyval :=
  '(v, r) ← parse_value (S (String.length s)) (skip_ws s);
  match skip_ws r with
  | EmptyString => Some v
  | _ => None
  end.

(** The number of constructors of a value, an upper bound on the depth
    the decoder needs for its encoding. *)
Fixpoint size (v : pyval) : nat :=
  match v with
  | PList l => S (list_sum (List.map (fun x => S (size x)) l))
  | PDict d => S (list_sum (List.map (fun kv => S (size (snd kv))) d))
  | _ => 1
  end.

Definition starts_digit (s : string) : bool :=
  match s with
  | String c _ => match digit_of_char c with Some _ => true | None => false end
  | EmptyString => false
  end.

(** What may follow an encoded value without changing how it is read. *)
Definition delimited (rest : string) : bool :=
  negb (starts_digit rest) && negb (starts_float rest).

(** The characters a JSON value can start with. *)
Definition value_start (c : ascii) : bool :=
  Ascii.eqb c dquote || Ascii.eqb c "[" || Ascii.eqb c "{" || Ascii.eqb c "n"
  || Ascii.eqb c "t" || Ascii.eqb c "f" || Ascii.eqb c "-"
  || match digit_of_char c with Some _ => true | None => false end.

Definition starts_value (s : string) : Prop :=
  exists c r, s = String c r /\ value_start c = true.

(** A value decodes when its encoding, followed by anything that delimits
    it, is read back as the value and leaves what follows. *)
Definition decodes (v : pyval) : Prop :=
  forall n rest, (size v <= n)%nat -> delimited rest = true ->
    parse_value n (dumps v +:+ rest) = Some (v, rest).

Definition dump_pair (kv : string * pyval) : string :=
  quote (fst kv) +:+ ": " +:+ dumps (snd kv).

End Json.

(** ** Exceptions and the handler monad *)

(** Every exception a handler meets is an instance of [Exception];
    FastAPI's [HTTPException] is one of them. [str(e)] of an
    [HTTPException] is its status code, a colon and its detail. *)
Inductive exn : Type :=
| HTTPException (status_code : Z) (detail : string)
| OtherException (message : string).

Definition str_of_Z (z : Z) : string := NilEmpty.string_of_int (Z.to_int z).

Definition exn_str (e : exn) : string :=
  match e with
  | HTTPException status_code detail => str_of_Z status_code +:+ ": " +:+ detail
  | OtherException message => message
  end.

(** Modelled from the spec: [models.models] is not among the sources. The
    three tables are users, cv_files and extracted_info; the attributes of
    each class are the ones [main.py] passes to its constructor or reads
    back. Timestamps are integers. *)
Module User.
Record t : Type := { id : Z; name : pyval; email : pyval }.
End User.

Module CVFile.
Record t : Type := {
  id : Z;
  user_id : Z;
  filename : string;
  file_path : string;
  file_size : Z;
  extracted_text : string;
  uploaded_at : Z
}.
End CVFile.

(** An [ExtractedInfo] row is read and written by attribute name, so it
    is a finite map from the names of its columns to their values. The
    columns are the attributes [main.py] passes to the constructor or
    reads back (lines 104-113, 153-162). Values are kept as Python hands
    them over: a commit stores them without coercion. What else is an
    attribute of the object (Python gives every object [__class__] and
    [__dict__], the class and the ORM add more) is not part of the row;
    [hasattr] and [setattr] below deal with it. *)
Module ExtractedInfo.
Abbreviation t := (gmap string pyval).

Definition columns : list string :=
  ["id"; "cv_file_id"; "name"; "email"; "phone"; "address"; "education";
   "experience"; "skills"; "languages"; "raw_data"; "created_at"].

Definition is_column (field : string) : bool := bool_decide (field ∈ columns).

Definition getattr (e : t) (field : string) : pyval := default PNone (e !! field).

(** Reading and writing a column of the row. *)
Definition setattr (e : t) (field : string) (value : pyval) : t := <[field := value]> e.

(** [ExtractedInfo(cv_file_id=..., ...)]: [id] and [created_at] are
    filled in by the database when the row is committed. *)
Definition new (cv_file_id name email phone address education experience
                skills languages raw_data : pyval) : t :=
  list_to_map
    [("id", PNone); ("cv_file_id", cv_file_id); ("name", name); ("email", email);
     ("phone", phone); ("address", address); ("education", education);
     ("experience", experience); ("skills", skills); ("languages", languages);
     ("raw_data", raw_data); ("created_at", PNone)].

Definition int_id (e : t) : Z :=
  match getattr e "id" with PInt z => z | _ => 0 end.
End ExtractedInfo.

(** [file: UploadFile]: the name the client sent and the bytes
    [await file.read()] returns. *)
Module UploadFile.
Record t : Type := { filename : string; content : list Byte.byte }.
End UploadFile.

(** The world a request runs in: the files on disk, the committed rows of
    the three tables in insertion order, and the clock. The files are
    keyed by the path string handed to the operating system: two strings
    that name one file ([uploads/a.pdf] and [uploads/./a.pdf]) are two
    keys, and directories ([os.makedirs]) leave no trace. *)
Record World : Type := {
  fs : gmap string (list Byte.byte);
  users : list User.t;
  cv_files : list CVFile.t;
  extracted_info : list ExtractedInfo.t;
  now : Z
}.

Definition set_fs (f : gmap string (list Byte.byte)) (w : World) : World :=
  {| fs := f; users := users w; cv_files := cv_files w;
     extracted_info := extracted_info w; now := now w |}.
Definition set_users (l : list User.t) (w : World) : World :=
  {| fs := fs w; users := l; cv_files := cv_files w;
     extracted_info := extracted_info w; now := now w |}.
Definition set_cv_files (l : list CVFile.t) (w : World) : World :=
  {| fs := fs w; users := users w; cv_files := l;
     extracted_info := extracted_info w; now := now w |}.
Definition set_extracted_info (l : list ExtractedInfo.t) (w : World) : World :=
  {| fs := fs w; users := users w; cv_files := cv_files w;
     extracted_info := l; now := now w |}.

(** The places where the operating system or the database can raise. In
    [upload_cv] the refresh of a row is taken to succeed when the commit
    before it did; in [update_cv_info] the commit of line 187 and the
    refresh of line 188 are two steps. *)
Inductive step : Type :=
| Makedirs | OpenFile | ReadUpload | WriteFile | RemoveFile
| CommitUser | CommitFile | CommitInfo | CommitUpdate | RefreshUpdate.

(** Modelled from the spec: [services.cv_analyzer],
    [services.nlp_processor] and [models.models] are not among the
    sources. The text extractor maps a path and the bytes stored there to
    text or raises; the field extractor maps text to a [dict] of JSON
    values or raises. [raises] tells for each step of a request whether it
    fails, and with which message. [has_attribute] tells which names,
    besides the columns, [__class__] and [__dict__], are attributes of an
    [ExtractedInfo] object (methods, what the class and the ORM add);
    [assign] is the outcome of [setattr] on an attribute that is not a
    column: an error, or the column values the object is left with. *)
Record Env : Type := {
  extract_text_from_file : string -> list Byte.byte -> exn + string;
  analyze_cv_text : string -> exn + list (string * pyval);
  raises : step -> option string;
  has_attribute : string -> bool;
  assign : string -> pyval -> ExtractedInfo.t -> string + ExtractedInfo.t
}.

(** A handler is a function of the world that returns or raises, and
    leaves a world behind in both cases. *)
Definition M (A : Type) : Type := World -> (exn + A) * World.

Definition ret {A} (a : A) : M A := fun w => (inr a, w).
Definition raise {A} (e : exn) : M A := fun w => (inl e, w).
Definition bind {A B} (m : M A) (k : A -> M B) : M B :=
  fun w => match m w with
           | (inr a, w') => k a w'
           | (inl e, w') => (inl e, w')
           end.
Definition try_except {A} (m : M A) (handler : exn -> M A) : M A :=
  fun w => match m w with
           | (inr a, w') => (inr a, w')
           | (inl e, w') => handler e w'
           end.
Definition get_world : M World := fun w => (inr w, w).
Definition modify (f : World -> World) : M unit := fun w => (inr tt, f w).
Definition lift {A} (r : exn + A) : M A := fun w => (r, w).

#[global] Instance M_ret : MRet M := @ret.
#[global] Instance M_bind : MBind M := fun A B k m => bind m k.

(** The status code the client sees: an [HTTPException] carries its own,
    any other exception that leaves a handler is a 500, a return is a 200. *)
Definition status {A} (r : exn + A) : Z :=
  match r with
  | inr _ => 200
  | inl (HTTPException status_code _) => status_code
  | inl (OtherException _) => 500
  end.

(** ** Strings and paths *)

(** [str.lower] on code points below 256. *)
Definition lower_char (c : ascii) : ascii :=
  let n := N_of_ascii c in
  if ((65 <=? n) && (n <=? 90))%N then ascii_of_N (n + 32)
  else if ((192 <=? n) && (n <=? 222) && negb (n =? 215))%N then ascii_of_N (n + 32)
  else c.

Fixpoint lower (s : string) : string :=
  match s with
  | EmptyString => EmptyString
  | String c r => String (lower_char c) (lower r)
  end.

Definition endswith (s suffix : string) : bool :=
  (String.length suffix <=? String.length s)%nat &&
  String.eqb
    (String.substring (String.length s - String.length suffix) (String.length suffix) s)
    suffix.

(** [os.path.join(a, b)] on POSIX: an absolute [b] replaces [a]. *)
Definition path_join (a b : string) : string :=
  match b with
  | String "/" _ => b
  | _ => a +:+ "/" +:+ b
  end.

(** The test of line 60: [filename.lower().endswith(('.pdf', '.doc', '.docx'))]. *)
Definition supported_type (filename : string) : bool :=
  let f := lower filename in
  endswith f ".pdf" || endswith f ".doc" || endswith f ".docx".

(** ** Database queries *)

(** The id the database gives a new row: one more than the largest id of
    the table, 1 in an empty table. *)
Definition next_id (ids : list Z) : Z := 1 + foldr Z.max 0 ids.

Definition is_int (v : pyval) (z : Z) : bool :=
  match v with PInt z' => z' =? z | _ => false end.

(** [db.query(CVFile).filter(CVFile.id == cv_id).first()] *)
Definition query_cv_file (cv_id : Z) (w : World) : option CVFile.t :=
  snd <$> list_find (fun f => CVFile.id f = cv_id) (cv_files w).

(** [db.query(ExtractedInfo).filter(ExtractedInfo.cv_file_id == cv_id).first()],
    with the position of the row in the table; rows are scanned in
    insertion order, which is the order of their ids as long as no update
    assigns [id]. *)
Definition query_extracted_info (cv_id : Z) (w : World) : option (nat * ExtractedInfo.t) :=
  list_find (fun e => Is_true (is_int (ExtractedInfo.getattr e "cv_file_id") cv_id))
            (extracted_info w).

Definition list_fields : list string := ["education"; "experience"; "skills"; "languages"].

(** [json.loads(x)]: a [TypeError] when [x] is not text, a
    [JSONDecodeError] when the text is not JSON. *)
Definition json_loads (x : pyval) : exn + pyval :=
  match x with
  | PStr s =>
      match Json.loads s with
      | Some v => inr v
      | None => inl (OtherException "JSONDecodeError")
      end
  | _ => inl (OtherException "TypeError")
  end.

(** [json.loads(x) if x else []] *)
Definition loads_or_empty (x : pyval) : exn + pyval :=
  if truthy x then json_loads x else inr (PList []).

Section Handlers.
Variable env : Env.

Definition fault (s : step) : M unit :=
  match raises env s with
  | Some message => raise (OtherException message)
  | None => ret tt
  end.

(** [db.add(user); db.commit(); db.refresh(user)] *)
Definition add_user (name email : pyval) : M User.t :=
  fault CommitUser ;;
  w ← get_world;
  let user := {| User.id := next_id (User.id <$> users w);
                 User.name := name; User.email := email |} in
  modify (set_users (users w ++ [user])) ;;
  ret user.

(** [db.add(cv_file); db.commit(); db.refresh(cv_file)] *)
Definition add_cv_file (user_id : Z) (filename file_path : string) (file_size : Z)
    (extracted_text : string) : M CVFile.t :=
  fault CommitFile ;;
  w ← get_world;
  let cv_file := {| CVFile.id := next_id (CVFile.id <$> cv_files w);
                    CVFile.user_id := user_id; CVFile.filename := filename;
                    CVFile.file_path := file_path; CVFile.file_size := file_size;
                    CVFile.extracted_text := extracted_text;
                    CVFile.uploaded_at := now w |} in
  modify (set_cv_files (cv_files w ++ [cv_file])) ;;
  ret cv_file.

(** [db.add(extracted_info); db.commit(); db.refresh(extracted_info)] *)
Definition add_extracted_info (e : ExtractedInfo.t) : M ExtractedInfo.t :=
  fault CommitInfo ;;
  w ← get_world;
  let row :=
    ExtractedInfo.setattr
      (ExtractedInfo.setattr e "id"
         (PInt (next_id (ExtractedInfo.int_id <$> extracted_info w))))
      "created_at" (PInt (now w)) in
  modify (set_extracted_info (extracted_info w ++ [row])) ;;
  ret row.

(** Lines 59-127: the body of the [try] block of [upload_cv]. *)
Definition upload_cv_body (file : UploadFile.t) (user_id : option Z) : M pyval :=
  let filename := UploadFile.filename file in
  if negb (supported_type filename) then
    raise (HTTPException 400 "Only PDF, DOC, and DOCX files are supported")
  else
    let upload_dir := "uploads" in
    fault Makedirs ;;
    let file_path := path_join upload_dir filename in
    fault OpenFile ;;
    w0 ← get_world;
    modify (set_fs (<[file_path := []]> (fs w0))) ;;
    fault ReadUpload ;;
    let content := UploadFile.content file in
    fault WriteFile ;;
    modify (set_fs (<[file_path := content]> (fs w0))) ;;
    extracted_text ← lift (extract_text_from_file env file_path content);
    cv_data ← lift (analyze_cv_text env extracted_text);
    user_id ← match user_id with
               | None =>
                   (user ← add_user (dict_get cv_data "name" (PStr "Unknown"))
                                    (dict_get cv_data "email" (PStr ""));
                    ret (User.id user))
               | Some user_id => ret user_id
               end;
    cv_file ← add_cv_file user_id filename file_path
                 (Z.of_nat (length content)) extracted_text;
    extracted_info ← add_extracted_info
      (ExtractedInfo.new
         (PInt (CVFile.id cv_file))
         (dict_get cv_data "name" (PStr ""))
         (dict_get cv_data "email" (PStr ""))
         (dict_get cv_data "phone" (PStr ""))
         (dict_get cv_data "address" (PStr ""))
         (PStr (Json.dumps (dict_get cv_data "education" (PList []))))
         (PStr (Json.dumps (dict_get cv_data "experience" (PList []))))
         (PStr (Json.dumps (dict_get cv_data "skills" (PList []))))
         (PStr (Json.dumps (dict_get cv_data "languages" (PList []))))
         (PStr (Json.dumps (PDict cv_data))));
    fault RemoveFile ;;
    w1 ← get_world;
    modify (set_fs (delete file_path (fs w1))) ;;
    ret (PDict [("message", PStr "CV uploaded and analyzed successfully");
                ("cv_file_id", PInt (CVFile.id cv_file));
                ("extracted_info_id", ExtractedInfo.getattr extracted_info "id");
                ("data", PDict cv_data)]).

(** [POST /api/upload-cv]: the [try] block and its [except Exception]. *)
Definition upload_cv (file : UploadFile.t) (user_id : option Z) : M pyval :=
  try_except (upload_cv_body file user_id)
    (fun e => raise (HTTPException 500 ("Error processing CV: " +:+ exn_str e))).

(** [hasattr(extracted_info, field)]: the columns, the two attributes
    every Python object has, and what else the class gives its objects. *)
Definition hasattr (field : string) : bool :=
  ExtractedInfo.is_column field
  || String.eqb field "__class__" || String.eqb field "__dict__"
  || has_attribute env field.

(** [setattr(extracted_info, field, value)]. A column takes the value.
    [__class__] takes a class only and [__dict__] a [dict] only: any
    other value is a [TypeError], and no JSON value is a class. Every
    other assignment is the environment's. *)
Definition setattr (e : ExtractedInfo.t) (field : string) (value : pyval)
    : exn + ExtractedInfo.t :=
  if ExtractedInfo.is_column field then inr (ExtractedInfo.setattr e field value)
  else if String.eqb field "__class__" then inl (OtherException "TypeError")
  else if String.eqb field "__dict__" && negb (is_dict value)
  then inl (OtherException "TypeError")
  else match assign env field value e with
       | inl message => inl (OtherException message)
       | inr e' => inr e'
       end.

(** Lines 180-185: the loop over [update_data.items()], on the object
    the query returned; an assignment that raises ends the request. *)
Fixpoint apply_update (e : ExtractedInfo.t) (update_data : list (string * pyval))
    : exn + ExtractedInfo.t :=
  match update_data with
  | [] => inr e
  | (field, value) :: rest =>
      let assigned :=
        if hasattr field then
          if bool_decide (field ∈ list_fields)
          then setattr e field (PStr (Json.dumps value))
          else setattr e field value
        else inr e in
      match assigned with
      | inl err => inl err
      | inr e' => apply_update e' rest
      end
  end.

(** [PUT /api/cv/{cv_id}/update]: the commit of line 187 writes the
    object back to its row; the refresh of line 188 follows it. *)
Definition update_cv_info (cv_id : Z) (update_data : list (string * pyval)) : M pyval :=
  w ← get_world;
  match query_extracted_info cv_id w with
  | None => raise (HTTPException 404 "Extracted information not found")
  | Some (i, info) =>
      info ← lift (apply_update info update_data);
      fault CommitUpdate ;;
      modify (set_extracted_info (<[i := info]> (extracted_info w))) ;;
      fault RefreshUpdate ;;
      ret (PDict [("message", PStr "CV information updated successfully")])
  end.

End Handlers.

(** [GET /api/cv/{cv_id}] *)
Definition get_cv_analysis (cv_id : Z) : M pyval :=
   w ← get_world;
   match query_cv_file cv_id w with
   | None => raise (HTTPException 404 "CV not found")
   | Some cv_file =>
       match query_extracted_info cv_id w with
       | None => raise (HTTPException 404 "Extracted information not found")
       | Some (_, extracted_info) =>
           let attr := ExtractedInfo.getattr extracted_info in
           education ← lift (loads_or_empty (attr "education"));
           experience ← lift (loads_or_empty (attr "experience"));
           skills ← lift (loads_or_empty (attr "skills"));
           languages ← lift (loads_or_empty (attr "languages"));
           ret (PDict
             [("cv_file", PDict
                 [("id", PInt (CVFile.id cv_file));
                  ("filename", PStr (CVFile.filename cv_file));
                  ("uploaded_at", PInt (CVFile.uploaded_at cv_file));
                  ("file_size", PInt (CVFile.file_size cv_file))]);
              ("extracted_info", PDict
                 [("id", attr "id");
                  ("name", attr "name");
                  ("email", attr "email");
                  ("phone", attr "phone");
                  ("address", attr "address");
                  ("education", education);
                  ("experience", experience);
                  ("skills", skills);
                  ("languages", languages);
                  ("created_at", attr "created_at")])])
       end
   end.

(** [GET /api/cvs] *)
Definition summary (w : World) (cv : CVFile.t) : pyval :=
  let extracted_info := query_extracted_info (CVFile.id cv) w in
  PDict [("id", PInt (CVFile.id cv));
         ("filename", PStr (CVFile.filename cv));
         ("uploaded_at", PInt (CVFile.uploaded_at cv));
         ("file_size", PInt (CVFile.file_size cv));
         ("name", match extracted_info with
                  | Some (_, e) => ExtractedInfo.getattr e "name"
                  | None => PStr "Unknown"
                  end);
         ("email", match extracted_info with
                   | Some (_, e) => ExtractedInfo.getattr e "email"
                   | None => PStr ""
                   end)].

Definition list_cvs : M pyval :=
  w ← get_world;
  ret (PList (summary w <$> cv_files w)).

(** ** What an upload stores *)

Definition upload_path (file : UploadFile.t) : string :=
  path_join "uploads" (UploadFile.filename file).

Definition owner_id (user_id : option Z) (w : World) : Z :=
  match user_id with
  | Some user_id => user_id
  | None => next_id (User.id <$> users w)
  end.

Definition stored_user (cv_data : list (string * pyval)) (w : World) : User.t :=
  {| User.id := next_id (User.id <$> users w);
     User.name := dict_get cv_data "name" (PStr "Unknown");
     User.email := dict_get cv_data "email" (PStr "") |}.

Definition users_after (user_id : option Z) (cv_data : list (string * pyval)) (w : World)
    : list User.t :=
  match user_id with
  | Some _ => users w
  | None => users w ++ [stored_user cv_data w]
  end.

Definition stored_cv_file (file : UploadFile.t) (user_id : option Z) (text : string)
    (w : World) : CVFile.t :=
  {| CVFile.id := next_id (CVFile.id <$> cv_files w);
     CVFile.user_id := owner_id user_id w;
     CVFile.filename := UploadFile.filename file;
     CVFile.file_path := upload_path file;
     CVFile.file_size := Z.of_nat (length (UploadFile.content file));
     CVFile.extracted_text := text;
     CVFile.uploaded_at := now w |}.

Definition stored_info (cv_data : list (string * pyval)) (w : World) : ExtractedInfo.t :=
  ExtractedInfo.setattr
    (ExtractedInfo.setattr
       (ExtractedInfo.new
          (PInt (next_id (CVFile.id <$> cv_files w)))
          (dict_get cv_data "name" (PStr ""))
          (dict_get cv_data "email" (PStr ""))
          (dict_get cv_data "phone" (PStr ""))
          (dict_get cv_data "address" (PStr ""))
          (PStr (Json.dumps (dict_get cv_data "education" (PList []))))
          (PStr (Json.dumps (dict_get cv_data "experience" (PList []))))
          (PStr (Json.dumps (dict_get cv_data "skills" (PList []))))
          (PStr (Json.dumps (dict_get cv_data "languages" (PList []))))
          (PStr (Json.dumps (PDict cv_data))))
       "id" (PInt (next_id (ExtractedInfo.int_id <$> extracted_info w))))
    "created_at" (PInt (now w)).

Definition upload_response (cv_data : list (string * pyval)) (w : World) : pyval :=
  PDict [("message", PStr "CV uploaded and analyzed successfully");
         ("cv_file_id", PInt (next_id (CVFile.id <$> cv_files w)));
         ("extracted_info_id", ExtractedInfo.getattr (stored_info cv_data w) "id");
         ("data", PDict cv_data)].

Definition is_error {A} (r : exn + A) : Prop := exists message, r = inl (HTTPException 500 message).

(** ** Reading responses and rows *)

Definition as_dict (v : pyval) : list (string * pyval) :=
  match v with PDict d => d | _ => [] end.

(** [v[key]] on a response. *)
Definition item (v : pyval) (key : string) : pyval := dict_get (as_dict v) key PNone.

(** The eight fields of a CandidateRecord. *)
Definition candidate_fields : list string :=
  ["name"; "email"; "phone"; "address"; "education"; "experience"; "skills"; "languages"].

(** The default [upload_cv] stores for a field the analysis left out. *)
Definition default_of (field : string) : pyval :=
  if bool_decide (field ∈ list_fields) then PList [] else PStr "".

(** A field of the CandidateRecord in an upload response, and in a fetch
    response. *)
Definition uploaded_field (response : pyval) (field : string) : pyval :=
  dict_get (as_dict (item response "data")) field (default_of field).

Definition fetched_field (response : pyval) (field : string) : pyval :=
  item (item response "extracted_info") field.

Definition response_cv_id (response : pyval) : Z :=
  match item response "cv_file_id" with PInt z => z | _ => 0 end.

(** What [update_cv_info] stores for a value, and the value an update
    gives last for a field. *)
Definition stored_value (field : string) (value : pyval) : pyval :=
  if bool_decide (field ∈ list_fields) then PStr (Json.dumps value) else value.

Fixpoint last_value (field : string) (update_data : list (string * pyval)) : option pyval :=
  match update_data with
  | [] => None
  | (k, v) :: rest =>
      match last_value field rest with
      | Some v' => Some v'
      | None => if String.eqb k field then Some v else None
      end
  end.

(** The row an update leaves when each of its keys names a column or
    nothing at all: every column named takes what [update_cv_info] stores
    for the value, in the order of the mapping. *)
Definition apply_columns (e : ExtractedInfo.t) (update_data : list (string * pyval))
    : ExtractedInfo.t :=
  foldl (fun e '(field, value) =>
           if ExtractedInfo.is_column field
           then ExtractedInfo.setattr e field (stored_value field value)
           else e)
        e update_data.

(** Every key of the mapping names a column of the row or is no attribute
    of the object; and the same with the eight CandidateRecord fields for
    the columns. Both leave out [__class__], [__dict__] and whatever else
    the object has; the second leaves out [id], [cv_file_id], [raw_data]
    and [created_at] as well. *)
Definition column_keys (env : Env) (update_data : list (string * pyval)) : bool :=
  forallb (fun kv => ExtractedInfo.is_column kv.1 || negb (hasattr env kv.1)) update_data.

Definition field_keys (env : Env) (update_data : list (string * pyval)) : bool :=
  forallb (fun kv => bool_decide (kv.1 ∈ candidate_fields) || negb (hasattr env kv.1))
          update_data.

(** The email of the [User] row a file record points to. *)
Definition owner_email (w : World) (cv : CVFile.t) : option pyval :=
  (fun u => User.email u.2) <$> list_find (fun u => User.id u = CVFile.user_id cv) (users w).

(** A list-valued column holds JSON text when it is a non-empty string
    that [json.loads] accepts. *)
Definition json_text (v : pyval) : Prop :=
  exists s x, v = PStr s /\ s <> "" /\ Json.loads s = Some x.


(** The worlds the two writing handlers can produce from empty tables. *)
Inductive reachable : World -> Prop :=
| reach_init w : cv_files w = [] -> extracted_info w = [] -> reachable w
| reach_upload env file user_id w :
    reachable w -> reachable (upload_cv env file user_id w).2
| reach_update env cv_id update_data w :
    reachable w -> reachable (update_cv_info env cv_id update_data w).2.



(** What [get_cv_analysis] answers for the rows of a successful upload. *)
Definition fetched_view (file : UploadFile.t) (cv_data : list (string * pyval)) (w : World)
    : pyval :=
  PDict
    [("cv_file", PDict
        [("id", PInt (next_id (CVFile.id <$> cv_files w)));
         ("filename", PStr (UploadFile.filename file));
         ("uploaded_at", PInt (now w));
         ("file_size", PInt (Z.of_nat (length (UploadFile.content file))))]);
     ("extracted_info", PDict
        [("id", PInt (next_id (ExtractedInfo.int_id <$> extracted_info w)));
         ("name", dict_get cv_data "name" (PStr ""));
         ("email", dict_get cv_data "email" (PStr ""));
         ("phone", dict_get cv_data "phone" (PStr ""));
         ("address", dict_get cv_data "address" (PStr ""));
         ("education", dict_get cv_data "education" (PList []));
         ("experience", dict_get cv_data "experience" (PList []));
         ("skills", dict_get cv_data "skills" (PList []));
         ("languages", dict_get cv_data "languages" (PList []));
         ("created_at", PInt (now w))])].

(** The summary [list_cvs] gives for an uploaded file, read off the
    upload's request and response. *)
Definition summary_of (file : UploadFile.t) (id time : Z) (response : pyval) : pyval :=
  PDict [("id", PInt id);
         ("filename", PStr (UploadFile.filename file));
         ("uploaded_at", PInt time);
         ("file_size", PInt (Z.of_nat (length (UploadFile.content file))));
         ("name", uploaded_field response "name");
         ("email", uploaded_field response "email")].

(** ** Sample requests *)

Definition cv_ada : list (string * pyval) :=
  [("name", PStr "Ada"); ("email", PStr "ada@x.org"); ("skills", PList [PStr "coq"])].

Definition cv_bob : list (string * pyval) :=
  [("name", PStr "Bob"); ("email", PStr "bob@y.org"); ("skills", PList [PStr "ml"])].

Definition file_ada : UploadFile.t :=
  {| UploadFile.filename := "ada.pdf";
     UploadFile.content := [Byte.x25; Byte.x50; Byte.x44; Byte.x46] |}.

Definition file_bob : UploadFile.t :=
  {| UploadFile.filename := "bob.DOCX"; UploadFile.content := [Byte.x50; Byte.x4b] |}.

Definition file_txt : UploadFile.t :=
  {| UploadFile.filename := "notes.txt"; UploadFile.content := [Byte.x68; Byte.x69] |}.

(** An [ExtractedInfo] object that is a plain Python object: besides its
    columns it has the attributes of every instance of a class, and its
    attributes are what its [__dict__] holds, so that assigning a [dict]
    to [__dict__] replaces them all; assigning to another attribute leaves
    the columns alone. *)
Definition plain_attributes : list string := ["__doc__"; "__module__"; "__init__"].

Definition plain_assign (field : string) (value : pyval) (e : ExtractedInfo.t)
    : string + ExtractedInfo.t :=
  match value with
  | PDict d =>
      if String.eqb field "__dict__"
      then inr (list_to_map (List.filter (fun kv => ExtractedInfo.is_column (fst kv)) d))
      else inr e
  | _ => inr e
  end.

(** Services that read "ada" from [ada.pdf] and "bob" from anything else;
    nothing fails. *)
Definition env_ok : Env :=
  {| extract_text_from_file :=
       fun path _ => inr (if String.eqb path "uploads/ada.pdf" then "ada" else "bob");
     analyze_cv_text := fun text => inr (if String.eqb text "ada" then cv_ada else cv_bob);
     raises := fun _ => None;
     has_attribute := fun field => bool_decide (field ∈ plain_attributes);
     assign := plain_assign |}.

(** The same services, with the commit of the extracted-info row failing. *)
Definition env_info_commit_fails : Env :=
  {| extract_text_from_file := extract_text_from_file env_ok;
     analyze_cv_text := analyze_cv_text env_ok;
     raises := fun s => match s with CommitInfo => Some "OperationalError" | _ => None end;
     has_attribute := has_attribute env_ok;
     assign := assign env_ok |}.

(** A text extractor that rejects the document. *)
Definition env_corrupt : Env :=
  {| extract_text_from_file := fun _ _ => inl (OtherException "corrupt document");
     analyze_cv_text := analyze_cv_text env_ok;
     raises := fun _ => None;
     has_attribute := has_attribute env_ok;
     assign := assign env_ok |}.

Definition w_empty : World :=
  {| fs := ∅; users := []; cv_files := []; extracted_info := []; now := 1700000000 |}.

(** The world after Ada's upload; after an upload whose extracted-info
    commit failed; after Ada's and Bob's uploads; and after an update of
    Ada's skills. *)
Definition w_ada : World := (upload_cv env_ok file_ada None w_empty).2.

Definition w_file_only : World := (upload_cv env_info_commit_fails file_ada None w_empty).2.

Definition w_ada_bob : World := (upload_cv env_ok file_bob None w_ada).2.


(** The tables after an upload, an update that points the stored row at
    the next file id, and nothing else. *)
Definition w_redirected : World :=
  (update_cv_info env_ok 1 [("cv_file_id", PInt 2)] w_ada).2.

(** Bob's CV uploaded for the user the first upload created. *)
Definition w_ada_owns_bob : World := (upload_cv env_ok file_bob (Some 1) w_ada).2.


(** ** The claims as the specification words them *)

(** The file record and the extracted-info record are written together
    or not at all. *)
Definition all_or_nothing (env : Env) (file : UploadFile.t) (user_id : option Z)
    (w : World) : Prop :=
  let w' := (upload_cv env file user_id w).2 in
  (cv_files w' = cv_files w /\ extracted_info w' = extracted_info w)
  \/ (exists f e, cv_files w' = cv_files w ++ [f] /\
                  extracted_info w' = extracted_info w ++ [e]).

(** The request gets as far as the commit of the file record, and that
    commit goes through (lines 58-99). *)
Definition commits_file (env : Env) (file : UploadFile.t) (user_id : option Z) : bool :=
  supported_type (UploadFile.filename file)
  && match raises env Makedirs, raises env OpenFile, raises env ReadUpload,
           raises env WriteFile with
     | None, None, None, None => true
     | _, _, _, _ => false
     end
  && match extract_text_from_file env
             (path_join "uploads" (UploadFile.filename file)) (UploadFile.content file) with
     | inr text => match analyze_cv_text env text with inr _ => true | inl _ => false end
     | inl _ => false
     end
  && match user_id, raises env CommitUser with
     | None, Some _ => false
     | _, _ => true
     end
  && match raises env CommitFile with None => true | Some _ => false end.


(** Fetching after a successful upload returns the fields of the upload
    response. *)
Definition round_trip (env : Env) (file : UploadFile.t) (user_id : option Z)
    (w : World) : Prop :=
  forall r w', upload_cv env file user_id w = (inr r, w') ->
    exists view, (get_cv_analysis (response_cv_id r) w').1 = inr view /\
      Forall (fun field => fetched_field view field = uploaded_field r field)
             candidate_fields.

(** After two successful uploads into empty tables the listing has two
    summaries, each with the file name and the email of the file's owner. *)
Definition lists_owner_emails (env : Env) (file1 : UploadFile.t) (user_id1 : option Z)
    (file2 : UploadFile.t) (user_id2 : option Z) (w : World) : Prop :=
  forall r1 w1 r2 w2,
    upload_cv env file1 user_id1 w = (inr r1, w1) ->
    upload_cv env file2 user_id2 w1 = (inr r2, w2) ->
    exists s1 s2,
      (list_cvs w2).1 = inr (PList [s1; s2]) /\
      item s1 "filename" = PStr (UploadFile.filename file1) /\
      item s2 "filename" = PStr (UploadFile.filename file2) /\
      forall i s cv, [s1; s2] !! i = Some s -> cv_files w2 !! i = Some cv ->
        owner_email w2 cv = Some (item s "email").



(** ** Further views of the handlers *)

Definition no_fault (env : Env) (s : step) : bool :=
  match raises env s with None => true | Some _ => false end.

(** Every step of an upload goes through: the type is supported, nothing
    raises on the way (the user's commit counts only when the request
    brings no [user_id]), and both services return. *)
Definition upload_succeeds (env : Env) (file : UploadFile.t) (user_id : option Z) : bool :=
  supported_type (UploadFile.filename file)
  && no_fault env Makedirs && no_fault env OpenFile
  && no_fault env ReadUpload && no_fault env WriteFile
  && match extract_text_from_file env
             (path_join "uploads" (UploadFile.filename file)) (UploadFile.content file) with
     | inr text => match analyze_cv_text env text with inr _ => true | inl _ => false end
     | inl _ => false
     end
  && match user_id with None => no_fault env CommitUser | Some _ => true end
  && no_fault env CommitFile && no_fault env CommitInfo && no_fault env RemoveFile.

(** What [json.loads(x) if x else []] evaluates to when it does not raise. *)
Definition decoded (x : pyval) : pyval :=
  match loads_or_empty x with inr v => v | inl _ => PNone end.

(** The answer of [get_cv_analysis] for a file row and an extracted-info
    row. *)
Definition view_of (cv_file : CVFile.t) (e : ExtractedInfo.t) : pyval :=
  PDict
    [("cv_file", PDict
        [("id", PInt (CVFile.id cv_file));
         ("filename", PStr (CVFile.filename cv_file));
         ("uploaded_at", PInt (CVFile.uploaded_at cv_file));
         ("file_size", PInt (CVFile.file_size cv_file))]);
     ("extracted_info", PDict
        [("id", ExtractedInfo.getattr e "id");
         ("name", ExtractedInfo.getattr e "name");
         ("email", ExtractedInfo.getattr e "email");
         ("phone", ExtractedInfo.getattr e "phone");
         ("address", ExtractedInfo.getattr e "address");
         ("education", decoded (ExtractedInfo.getattr e "education"));
         ("experience", decoded (ExtractedInfo.getattr e "experience"));
         ("skills", decoded (ExtractedInfo.getattr e "skills"));
         ("languages", decoded (ExtractedInfo.getattr e "languages"));
         ("created_at", ExtractedInfo.getattr e "created_at")])].

(** The same services, with the commit of the file row failing. *)
Definition env_file_commit_fails : Env :=
  {| extract_text_from_file := extract_text_from_file env_ok;
     analyze_cv_text := analyze_cv_text env_ok;
     raises := fun s => match s with CommitFile => Some "OperationalError" | _ => None end;
     has_attribute := has_attribute env_ok;
     assign := assign env_ok |}.


(** A world with a file record and an extracted-info row whose education
    column was never filled in. *)
Definition w_blank_education : World :=
  {| fs := ∅; users := [];
     cv_files := [stored_cv_file file_ada None "ada" w_empty];
     extracted_info :=
       [ExtractedInfo.new (PInt 1) (PStr "Ada") (PStr "ada@x.org") (PStr "") (PStr "")
          PNone (PStr (Json.dumps (PList []))) (PStr (Json.dumps (PList [PStr "coq"])))
          (PStr (Json.dumps (PList []))) PNone];
     now := 1700000000 |}.

(** The extensions line 60 accepts. *)
Definition supported_extensions : list string := [".pdf"; ".doc"; ".docx"].

(** * Properties *)

(** ** The JSON codec *)

Module JsonFacts.
Import Json.

#[local] Arguments String.append !_ _ : simpl nomatch.

Lemma append_assoc (s1 s2 s3 : string) : (s1 +:+ s2) +:+ s3 = s1 +:+ (s2 +:+ s3).
Proof. induction s1 as [|c s1 IH]; simpl; [reflexivity | by rewrite IH]. Qed.

Lemma append_empty_r (s : string) : s +:+ "" = s.
Proof. induction s as [|c s IH]; simpl; [reflexivity | by rewrite IH]. Qed.

Lemma length_append (s1 s2 : string) :
  String.length (s1 +:+ s2) = (String.length s1 + String.length s2)%nat.
Proof. induction s1 as [|c s1 IH]; simpl; [reflexivity | by rewrite IH]. Qed.

Lemma scanstring_escape_char c r :
  scanstring (escape_char c +:+ r) = cons_char c (scanstring r).
Proof. destruct c as [[] [] [] [] [] [] [] []]; reflexivity. Qed.

Lemma scanstring_escape s rest :
  scanstring (escape s +:+ String dquote rest) = Some (s, rest).
Proof.
  induction s as [|c s IH]; simpl; [reflexivity |].
  by rewrite append_assoc, scanstring_escape_char, IH.
Qed.

Lemma scan_digits_stop rest : starts_digit rest = false -> scan_digits rest = (Nil, rest).
Proof.
  destruct rest as [|c r]; simpl; [reflexivity |].
  by destruct (digit_of_char c).
Qed.

Lemma scan_digits_uint d rest :
  starts_digit rest = false ->
  scan_digits (NilEmpty.string_of_uint d +:+ rest) = (d, rest).
Proof.
  intros Hr. induction d; simpl; try (rewrite IHd; reflexivity).
  by apply scan_digits_stop.
Qed.

Lemma value_start_skip c r : value_start c = true -> skip_ws (String c r) = String c r.
Proof. revert r. destruct c as [[] [] [] [] [] [] [] []]; intros r H;
  first [ reflexivity | vm_compute in H; discriminate H ]. Qed.

Lemma value_start_open c :
  value_start c = true -> Ascii.eqb c "]" = false /\ Ascii.eqb c "}" = false.
Proof. destruct c as [[] [] [] [] [] [] [] []]; intros H;
  first [ split; reflexivity | vm_compute in H; discriminate H ]. Qed.

Lemma parse_value_number n c r :
  (match digit_of_char c with Some _ => true | None => false end || Ascii.eqb c "-") = true ->
  parse_value (S n) (String c r) = scan_number (String c r).
Proof. revert n r. destruct c as [[] [] [] [] [] [] [] []]; intros n r H;
  first [ vm_compute in H; discriminate H | reflexivity ]. Qed.

Lemma string_of_uint_head u :
  u <> Nil ->
  exists c r, NilEmpty.string_of_uint u = String c r /\
    match digit_of_char c with Some _ => true | None => false end = true /\
    Ascii.eqb c "-" = false.
Proof. destruct u; intros Hu; try congruence; simpl; eauto 10. Qed.

Lemma unorm_to_uint p : unorm (Pos.to_uint p) = Pos.to_uint p.
Proof.
  rewrite <- (DecimalPos.Unsigned.to_of (Pos.to_uint p)).
  by rewrite DecimalPos.Unsigned.of_to.
Qed.

Lemma of_uint_to_uint p : Z.of_uint (Pos.to_uint p) = Z.pos p.
Proof. exact (DecimalZ.of_to (Z.pos p)). Qed.

Lemma scan_nat_uint u rest :
  u <> Nil -> unorm u = u -> delimited rest = true ->
  scan_nat (NilEmpty.string_of_uint u +:+ rest) = Some (Z.of_uint u, rest).
Proof.
  intros Hu Hn Hd. unfold delimited in Hd.
  apply andb_true_iff in Hd as [Hd Hf]. apply negb_true_iff in Hd, Hf.
  unfold scan_nat. rewrite scan_digits_uint by done.
  destruct u as [|u'| | | | | | | | |]; try congruence; try (by rewrite Hf).
  unfold unorm in Hn. rewrite DecimalFacts.nzhead_D0 in Hn.
  destruct (nzhead u') eqn:Hz; try (by exfalso; eapply DecimalFacts.nzhead_nonzero; rewrite Hz, Hn).
  injection Hn as <-. by rewrite Hf.
Qed.

Lemma scan_number_int z rest :
  delimited rest = true ->
  scan_number (NilEmpty.string_of_int (Z.to_int z) +:+ rest) = Some (PInt z, rest).
Proof.
  intros Hd. destruct z as [|p|p].
  - change (NilEmpty.string_of_int (Z.to_int 0)) with (NilEmpty.string_of_uint (D0 Nil)).
    change (scan_number (NilEmpty.string_of_uint (D0 Nil) +:+ rest))
      with ('(z, r') ← scan_nat (NilEmpty.string_of_uint (D0 Nil) +:+ rest); Some (PInt z, r')).
    by rewrite scan_nat_uint.
  - change (NilEmpty.string_of_int (Z.to_int (Z.pos p)))
      with (NilEmpty.string_of_uint (Pos.to_uint p)).
    destruct (string_of_uint_head (Pos.to_uint p)) as (c & r & Hs & _ & Hm);
      [apply DecimalPos.Unsigned.to_uint_nonnil |].
    assert (scan_nat (NilEmpty.string_of_uint (Pos.to_uint p) +:+ rest)
            = Some (Z.pos p, rest)) as Hn.
    { rewrite scan_nat_uint, ?of_uint_to_uint; auto using unorm_to_uint.
      apply DecimalPos.Unsigned.to_uint_nonnil. }
    rewrite Hs in *. simpl String.append in *. unfold scan_number. rewrite Hm, Hn. reflexivity.
  - change (NilEmpty.string_of_int (Z.to_int (Z.neg p)))
      with (String "-" (NilEmpty.string_of_uint (Pos.to_uint p))).
    simpl String.append. unfold scan_number.
    change (Ascii.eqb "-" "-") with true. cbv iota.
    rewrite scan_nat_uint, ?of_uint_to_uint; auto using unorm_to_uint.
    apply DecimalPos.Unsigned.to_uint_nonnil.
Qed.

Lemma dumps_start v : exists c r, dumps v = String c r /\ value_start c = true.
Proof.
  destruct v as [|[]|[|p|p]| | |]; try (by do 2 eexists; split; [reflexivity|reflexivity]).
  change (dumps (PInt (Z.pos p))) with (NilEmpty.string_of_uint (Pos.to_uint p)).
  destruct (string_of_uint_head (Pos.to_uint p)) as (c & r & Hs & Hc & _);
    [apply DecimalPos.Unsigned.to_uint_nonnil |].
  exists c, r. split; [done|]. unfold value_start. rewrite Hc.
  by rewrite !orb_true_r.
Qed.

Lemma starts_value_append s t : starts_value s -> starts_value (s +:+ t).
Proof. intros (c & r & -> & Hc). exists c, (r +:+ t). by split. Qed.

Lemma starts_value_skip s : starts_value s -> skip_ws s = s.
Proof. intros (c & r & -> & Hc). by apply value_start_skip. Qed.

Lemma parse_value_open_list n s :
  starts_value s ->
  parse_value (S n) (String "[" s) = '(l, r) ← parse_items n s; Some (PList l, r).
Proof.
  intros (c & r & -> & Hc).
  change (parse_value (S n) (String "[" (String c r)))
    with (match skip_ws (String c r) with
          | String c' r' =>
              if Ascii.eqb c' "]" then Some (PList [], r')
              else ('(l, r'') ← parse_items n (String c' r'); Some (PList l, r''))
          | EmptyString => None
          end).
  rewrite value_start_skip by done.
  by destruct (value_start_open c Hc) as [-> _].
Qed.

Lemma parse_value_open_dict n s :
  starts_value s ->
  parse_value (S n) (String "{" s) = '(d, r) ← parse_pairs n s; Some (PDict d, r).
Proof.
  intros (c & r & -> & Hc).
  change (parse_value (S n) (String "{" (String c r)))
    with (match skip_ws (String c r) with
          | String c' r' =>
              if Ascii.eqb c' "}" then Some (PDict [], r')
              else ('(d, r'') ← parse_pairs n (String c' r'); Some (PDict d, r''))
          | EmptyString => None
          end).
  rewrite value_start_skip by done.
  by destruct (value_start_open c Hc) as [_ ->].
Qed.

Lemma parse_items_last n s x rest :
  parse_value n s = Some (x, String "]" rest) ->
  parse_items (S n) s = Some ([x], rest).
Proof.
  intros H.
  change (parse_items (S n) s)
    with ('(v, r) ← parse_value n s;
          match skip_ws r with
          | String c r' =>
              if Ascii.eqb c "]" then Some ([v], r')
              else if Ascii.eqb c "," then
                ('(vs, r'') ← parse_items n (skip_ws r'); Some (v :: vs, r''))
              else None
          | EmptyString => None
          end).
  by rewrite H.
Qed.

Lemma parse_items_more n s x s' l rest :
  parse_value n s = Some (x, String "," (String " " s')) ->
  starts_value s' ->
  parse_items n s' = Some (l, rest) ->
  parse_items (S n) s = Some (x :: l, rest).
Proof.
  intros H Hs Hl.
  change (parse_items (S n) s)
    with ('(v, r) ← parse_value n s;
          match skip_ws r with
          | String c r' =>
              if Ascii.eqb c "]" then Some ([v], r')
              else if Ascii.eqb c "," then
                ('(vs, r'') ← parse_items n (skip_ws r'); Some (v :: vs, r''))
              else None
          | EmptyString => None
          end).
  rewrite H.
  change (parse_items n (skip_ws s') ≫= (λ '(vs, r''), Some (x :: vs, r'')) = Some (x :: l, rest)).
  by rewrite starts_value_skip, Hl.
Qed.

Lemma parse_pairs_unfold n k s :
  parse_pairs (S n) (quote k +:+ ": " +:+ s) =
  '(v, r) ← parse_value n (skip_ws s);
  match skip_ws r with
  | String c' r' =>
      if Ascii.eqb c' "}" then Some ([(k, v)], r')
      else if Ascii.eqb c' "," then
        ('(kvs, r'') ← parse_pairs n (skip_ws r'); Some ((k, v) :: kvs, r''))
      else None
  | EmptyString => None
  end.
Proof.
  unfold quote.
  change (String dquote (escape k +:+ String dquote "") +:+ ": " +:+ s)
    with (String dquote ((escape k +:+ String dquote "") +:+ ": " +:+ s)).
  rewrite append_assoc.
  change (String dquote "" +:+ ": " +:+ s) with (String dquote (String ":" (String " " s))).
  change (parse_pairs (S n) (String dquote (escape k +:+ String dquote (String ":" (String " " s)))))
    with ('(k, r1) ← scanstring (escape k +:+ String dquote (String ":" (String " " s)));
          match skip_ws r1 with
          | String c r2 =>
              if Ascii.eqb c ":" then
                '(v, r) ← parse_value n (skip_ws r2);
                match skip_ws r with
                | String c' r' =>
                    if Ascii.eqb c' "}" then Some ([(k, v)], r')
                    else if Ascii.eqb c' "," then
                      ('(kvs, r'') ← parse_pairs n (skip_ws r'); Some ((k, v) :: kvs, r''))
                    else None
                | EmptyString => None
                end
              else None
          | EmptyString => None
          end).
  rewrite scanstring_escape. reflexivity.
Qed.

Lemma parse_pairs_last n k s v rest :
  starts_value s ->
  parse_value n s = Some (v, String "}" rest) ->
  parse_pairs (S n) (quote k +:+ ": " +:+ s) = Some ([(k, v)], rest).
Proof. intros Hs H. by rewrite parse_pairs_unfold, starts_value_skip, H. Qed.

Lemma parse_pairs_more n k s v s' d rest :
  starts_value s ->
  parse_value n s = Some (v, String "," (String " " s')) ->
  starts_value s' ->
  parse_pairs n s' = Some (d, rest) ->
  parse_pairs (S n) (quote k +:+ ": " +:+ s) = Some ((k, v) :: d, rest).
Proof.
  intros Hs H Hs' Hd. rewrite parse_pairs_unfold, starts_value_skip, H by done.
  change (parse_pairs n (skip_ws s') ≫= (λ '(kvs, r''), Some ((k, v) :: kvs, r''))
          = Some ((k, v) :: d, rest)).
  by rewrite starts_value_skip, Hd.
Qed.

Lemma int_start z rest :
  exists c r, NilEmpty.string_of_int (Z.to_int z) +:+ rest = String c r /\
    (match digit_of_char c with Some _ => true | None => false end || Ascii.eqb c "-") = true.
Proof.
  destruct z as [|p|p]; [by eexists _, _ | | by eexists _, _].
  change (NilEmpty.string_of_int (Z.to_int (Z.pos p)))
    with (NilEmpty.string_of_uint (Pos.to_uint p)).
  destruct (string_of_uint_head (Pos.to_uint p)) as (c & r & Hs & Hc & _);
    [apply DecimalPos.Unsigned.to_uint_nonnil |].
  exists c, (r +:+ rest). rewrite Hs, Hc. by split.
Qed.

Lemma join_starts_value sep x l :
  starts_value x -> starts_value (join sep (x :: l)).
Proof. intros Hx. destruct l; [done|]. by apply starts_value_append. Qed.

Lemma dump_pair_starts kv : starts_value (dump_pair kv).
Proof. by eexists _, _. Qed.

Lemma items_decode l :
  Forall decodes l -> l <> [] ->
  forall n rest, (list_sum (List.map (fun x => S (size x)) l) <= n)%nat ->
    parse_items n (join ", " (List.map dumps l) +:+ String "]" rest) = Some (l, rest).
Proof.
  induction 1 as [|x l Hx Hl IH]; [done|]. intros _ n rest Hn.
  destruct n as [|n]; simpl in Hn; [lia|].
  destruct l as [|y l'].
  - apply parse_items_last. apply Hx; [lia | reflexivity].
  - change (join ", " (List.map dumps (x :: y :: l')) +:+ String "]" rest)
      with ((dumps x +:+ ", " +:+ join ", " (List.map dumps (y :: l'))) +:+ String "]" rest).
    rewrite !append_assoc.
    apply parse_items_more with (s' := join ", " (List.map dumps (y :: l')) +:+ String "]" rest).
    + apply Hx; [lia | reflexivity].
    + apply starts_value_append, join_starts_value, dumps_start.
    + apply IH; [done | simpl in *; lia].
Qed.

Lemma pairs_decode d :
  Forall (fun kv => decodes (snd kv)) d -> d <> [] ->
  forall n rest, (list_sum (List.map (fun kv => S (size (snd kv))) d) <= n)%nat ->
    parse_pairs n (join ", " (List.map dump_pair d) +:+ String "}" rest) = Some (d, rest).
Proof.
  induction 1 as [|[k v] d Hv Hd IH]; [done|]. intros _ n rest Hn.
  simpl in Hv. destruct n as [|n]; simpl in Hn; [lia|].
  destruct d as [|kv d'].
  - change (join ", " (List.map dump_pair [(k, v)]) +:+ String "}" rest)
      with ((quote k +:+ ": " +:+ dumps v) +:+ String "}" rest).
    rewrite !append_assoc.
    apply parse_pairs_last; [apply starts_value_append, dumps_start |].
    apply Hv; [lia | reflexivity].
  - change (join ", " (List.map dump_pair ((k, v) :: kv :: d')) +:+ String "}" rest)
      with (((quote k +:+ ": " +:+ dumps v) +:+ ", " +:+
              join ", " (List.map dump_pair (kv :: d'))) +:+ String "}" rest).
    rewrite !append_assoc.
    apply parse_pairs_more
      with (s' := join ", " (List.map dump_pair (kv :: d')) +:+ String "}" rest).
    + apply starts_value_append, dumps_start.
    + apply Hv; [lia | reflexivity].
    + apply starts_value_append, join_starts_value, dump_pair_starts.
    + apply IH; [done | simpl in *; lia].
Qed.

Lemma dumps_decodes v : decodes v.
Proof.
  induction v as [|b|z|s|l IH|d IH] using pyval_nested_ind; intros n rest Hn Hd;
    (destruct n as [|n]; [simpl in Hn; lia|]).
  - reflexivity.
  - by destruct b.
  - change (dumps (PInt z)) with (NilEmpty.string_of_int (Z.to_int z)).
    destruct (int_start z rest) as (c & r & E & Hc).
    rewrite E, parse_value_number, <- E by done. by apply scan_number_int.
  - change (dumps (PStr s) +:+ rest)
      with (String dquote ((escape s +:+ String dquote "") +:+ rest)).
    rewrite append_assoc.
    change (parse_value (S n) (String dquote (escape s +:+ String dquote "" +:+ rest)))
      with ('(k, r') ← scanstring (escape s +:+ String dquote rest); Some (PStr k, r')).
    by rewrite scanstring_escape.
  - destruct l as [|x l]; [reflexivity|].
    change (dumps (PList (x :: l)) +:+ rest)
      with (("[" +:+ join ", " (List.map dumps (x :: l)) +:+ "]") +:+ rest).
    rewrite !append_assoc.
    change ("[" +:+ join ", " (List.map dumps (x :: l)) +:+ "]" +:+ rest)
      with (String "[" (join ", " (List.map dumps (x :: l)) +:+ String "]" rest)).
    rewrite parse_value_open_list
      by apply starts_value_append, join_starts_value, dumps_start.
    rewrite items_decode; [reflexivity | done | done | simpl in *; lia].
  - destruct d as [|kv d]; [reflexivity|].
    change (dumps (PDict (kv :: d)) +:+ rest)
      with (("{" +:+ join ", " (List.map dump_pair (kv :: d)) +:+ "}") +:+ rest).
    rewrite !append_assoc.
    change ("{" +:+ join ", " (List.map dump_pair (kv :: d)) +:+ "}" +:+ rest)
      with (String "{" (join ", " (List.map dump_pair (kv :: d)) +:+ String "}" rest)).
    rewrite parse_value_open_dict
      by apply starts_value_append, join_starts_value, dump_pair_starts.
    rewrite pairs_decode; [reflexivity | done | done | simpl in *; lia].
Qed.

Lemma dumps_nonempty v : dumps v <> "".
Proof. destruct (dumps_start v) as (c & r & -> & _). discriminate. Qed.

Lemma size_le_length v : (size v <= String.length (dumps v))%nat.
Proof.
  induction v as [|b|z|s|l IH|d IH] using pyval_nested_ind.
  - simpl; lia.
  - destruct b; simpl; lia.
  - destruct (dumps_start (PInt z)) as (c & r & -> & _). simpl; lia.
  - simpl; lia.
  - assert (list_sum (List.map (fun x => S (size x)) l)
            <= String.length (join ", " (List.map dumps l)) + 1)%nat as Hl.
    { induction IH as [|x l Hx _ IHl]; [simpl; lia|].
      destruct l as [|y l']; [simpl in *; lia|].
      change (join ", " (List.map dumps (x :: y :: l')))
        with (dumps x +:+ ", " +:+ join ", " (List.map dumps (y :: l'))).
      rewrite !length_append. simpl in *. lia. }
    change (dumps (PList l)) with ("[" +:+ join ", " (List.map dumps l) +:+ "]").
    rewrite !length_append. simpl in *. lia.
  - assert (list_sum (List.map (fun kv => S (size (snd kv))) d)
            <= String.length (join ", " (List.map dump_pair d)) + 1)%nat as Hl.
    { induction IH as [|[k v] d Hv _ IHd]; [simpl; lia|].
      assert (S (size v) <= String.length (dump_pair (k, v)))%nat as Hkv.
      { unfold dump_pair, quote. rewrite !length_append. simpl in *. lia. }
      destruct d as [|kv d']; [simpl in *; lia|].
      change (join ", " (List.map dump_pair ((k, v) :: kv :: d')))
        with (dump_pair (k, v) +:+ ", " +:+ join ", " (List.map dump_pair (kv :: d'))).
      rewrite !length_append. simpl in *. lia. }
    change (dumps (PDict d)) with ("{" +:+ join ", " (List.map dump_pair d) +:+ "}").
    rewrite !length_append. simpl in *. lia.
Qed.

(** [json.loads(json.dumps(v))] is [v]. *)
Lemma loads_dumps v : loads (dumps v) = Some v.
Proof.
  unfold loads. rewrite starts_value_skip by apply dumps_start.
  rewrite <- (append_empty_r (dumps v)) at 2.
  rewrite dumps_decodes; [reflexivity | | reflexivity].
  pose proof (size_le_length v). lia.
Qed.
End JsonFacts.

Example dumps_ex :
  Json.dumps (PList [PStr "a"; PInt (-12); PDict [("k", PNone)]]) =
  String "[" (String Json.dquote ("a" +:+ String Json.dquote (", -12, {" +:+
    String Json.dquote ("k" +:+ String Json.dquote ": null}]")))).
Proof. reflexivity. Qed.

Example loads_ex :
  Json.loads (Json.dumps (PList [PStr "a"; PInt (-12); PDict [("k", PNone); ("z", PList [])]]))
  = Some (PList [PStr "a"; PInt (-12); PDict [("k", PNone); ("z", PList [])]]).
Proof. vm_compute. reflexivity. Qed.

Example loads_whitespace_ex :
  Json.loads " [1 , -20,[ ] ] " = Some (PList [PInt 1; PInt (-20); PList []]).
Proof. reflexivity. Qed.

Example loads_rejects_ex :
  Json.loads "[1, 2" = None /\ Json.loads "01" = None /\ Json.loads "" = None.
Proof. repeat split; reflexivity. Qed.

Example supported_type_ex :
  supported_type "Resume.PDF" = true /\ supported_type "cv.docx" = true /\
  supported_type "notes.txt" = false /\ supported_type "cv.pdf.zip" = false.
Proof. repeat split; reflexivity. Qed.

Example path_join_ex :
  path_join "uploads" "ada.pdf" = "uploads/ada.pdf" /\
  path_join "uploads" "/srv/ada.pdf" = "/srv/ada.pdf".
Proof. split; reflexivity. Qed.

(** ** Uploads *)

Ltac run_handler :=
  unfold upload_cv, try_except, upload_cv_body, update_cv_info, add_user, add_cv_file,
    add_extracted_info, fault, mbind, M_bind, mret, M_ret, bind, ret, raise,
    get_world, modify, lift.

Ltac step_simpl := cbn beta iota zeta delta [fst snd negb].

Ltac split_faults env l :=
  lazymatch l with
  | nil => idtac
  | cons ?s ?rest => destruct (raises env s) eqn:?; step_simpl; [ | split_faults env rest ]
  end.

Section UploadFacts.
Variable env : Env.

Lemma upload_unsupported file user_id w :
  supported_type (UploadFile.filename file) = false ->
  upload_cv env file user_id w =
    (inl (HTTPException 500
       "Error processing CV: 400: Only PDF, DOC, and DOCX files are supported"), w).
Proof. intros H. run_handler. rewrite H. reflexivity. Qed.

(** Every way an upload can end, with the rows it has committed by then. *)
Lemma upload_cv_outcome file user_id w :
  let r := (upload_cv env file user_id w).1 in
  let w' := (upload_cv env file user_id w).2 in
  now w' = now w /\
  ((is_error r /\ cv_files w' = cv_files w /\ extracted_info w' = extracted_info w)
   \/ (exists text message,
         is_error r /\ raises env CommitInfo = Some message /\
         cv_files w' = cv_files w ++ [stored_cv_file file user_id text w] /\
         extracted_info w' = extracted_info w)
   \/ (exists text cv_data,
         supported_type (UploadFile.filename file) = true /\
         extract_text_from_file env (upload_path file) (UploadFile.content file) = inr text /\
         analyze_cv_text env text = inr cv_data /\
         users w' = users_after user_id cv_data w /\
         cv_files w' = cv_files w ++ [stored_cv_file file user_id text w] /\
         extracted_info w' = extracted_info w ++ [stored_info cv_data w] /\
         ((r = inr (upload_response cv_data w) /\
           fs w' = delete (upload_path file) (<[upload_path file := UploadFile.content file]> (fs w)))
          \/ (is_error r /\ raises env RemoveFile <> None)))).
Proof.
  run_handler. fold (upload_path file).
  destruct (supported_type (UploadFile.filename file)) eqn:Hs; step_simpl;
    [| by split; [| left; split; [eexists|]]].
  split_faults env [Makedirs; OpenFile; ReadUpload; WriteFile];
    try (by split; [| left; split; [eexists|]]).
  destruct (extract_text_from_file env _ _) as [e|text] eqn:Ht; step_simpl;
    [by split; [| left; split; [eexists|]] |].
  destruct (analyze_cv_text env text) as [e|cv_data] eqn:Hd; step_simpl;
    [by split; [| left; split; [eexists|]] |].
  destruct user_id as [u|]; step_simpl.
  - split_faults env [CommitFile; CommitInfo; RemoveFile].
    + by split; [| left; split; [eexists|]].
    + split; [done|]. right; left. exists text. eexists. by split; [eexists|].
    + split; [done|]. right; right. exists text, cv_data.
      repeat (split; [done|]). right. by split; [eexists|].
    + split; [done|]. right; right. exists text, cv_data.
      repeat (split; [done|]). left. split; reflexivity.
  - split_faults env [CommitUser; CommitFile; CommitInfo; RemoveFile].
    + by split; [| left; split; [eexists|]].
    + by split; [| left; split; [eexists|]].
    + split; [done|]. right; left. exists text. eexists. by split; [eexists|].
    + split; [done|]. right; right. exists text, cv_data.
      repeat (split; [done|]). right. by split; [eexists|].
    + split; [done|]. right; right. exists text, cv_data.
      repeat (split; [done|]). left. split; reflexivity.
Qed.
End UploadFacts.

(** An upload never answers with the 400 it raises for an unsupported
    type: whatever leaves the [try] block is turned into a 500. *)
Lemma upload_cv_error_is_500 env file user_id w e :
  (upload_cv env file user_id w).1 = inl e -> exists message, e = HTTPException 500 message.
Proof.
  destruct (upload_cv_outcome env file user_id w) as [_ H]. intros He.
  destruct H as [(H & _)|[(? & ? & H & _)|(? & ? & _ & _ & _ & _ & _ & _ & [[H _]|[H _]])]].
  3: { rewrite H in He. discriminate He. }
  all: destruct H as [m H]; rewrite H in He; injection He as <-; by eexists.
Qed.

Ltac per_record_case :=
  repeat split; intros;
  first [ discriminate | congruence | by eexists | by eexists _, _ ].

(** C1, as amended. Persistence is per record, not per request: the two
    rows are committed one after the other and nothing is rolled back. A
    request that fails before the commit of the file record has gone
    through writes neither row. A request that gets through that commit
    and fails at the commit of the extracted-info row leaves the file row
    stored alone. A request that gets through both commits leaves both
    rows, the second pointing to the first, also when it fails afterwards
    (at the removal of the uploaded file). A request that returns has got
    through both. *)
Theorem upload_persists_per_record env file user_id w :
  let r := (upload_cv env file user_id w).1 in
  let w' := (upload_cv env file user_id w).2 in
  (commits_file env file user_id = false ->
   is_error r /\ cv_files w' = cv_files w /\ extracted_info w' = extracted_info w)
  /\ (commits_file env file user_id = true -> raises env CommitInfo <> None ->
      is_error r /\ extracted_info w' = extracted_info w /\
      exists f, cv_files w' = cv_files w ++ [f])
  /\ (commits_file env file user_id = true -> raises env CommitInfo = None ->
      exists f e, cv_files w' = cv_files w ++ [f] /\
                  extracted_info w' = extracted_info w ++ [e] /\
                  ExtractedInfo.getattr e "cv_file_id" = PInt (CVFile.id f))
  /\ (forall v, r = inr v ->
      commits_file env file user_id = true /\ raises env CommitInfo = None).
Proof.
  unfold commits_file. run_handler.
  destruct (supported_type (UploadFile.filename file)); step_simpl; [|per_record_case].
  split_faults env [Makedirs; OpenFile; ReadUpload; WriteFile]; try per_record_case.
  destruct (extract_text_from_file env _ _) as [?|text]; step_simpl; [per_record_case|].
  destruct (analyze_cv_text env text) as [?|cv_data]; step_simpl; [per_record_case|].
  destruct user_id as [u|]; step_simpl.
  - split_faults env [CommitFile; CommitInfo; RemoveFile]; per_record_case.
  - split_faults env [CommitUser; CommitFile; CommitInfo; RemoveFile]; per_record_case.
Qed.

Lemma upload_persists_per_record_witness :
  is_error (upload_cv env_info_commit_fails file_ada None w_empty).1 /\
  extracted_info w_file_only = [] /\
  exists f, cv_files w_file_only = [] ++ [f].
Proof.
  apply (proj1 (proj2 (upload_persists_per_record env_info_commit_fails file_ada None w_empty)));
    [reflexivity | discriminate].
Defined.

(** C1, as stated, fails: when the commit of the extracted-info row
    raises, the file row is already committed and stays alone. *)
Lemma upload_not_all_or_nothing :
  ~ all_or_nothing env_info_commit_fails file_ada None w_empty.
Proof.
  intros [[H _]|(f & e & _ & H)]; vm_compute in H; discriminate H.
Qed.

(** C2. For a file name that ends in none of [.pdf], [.doc], [.docx] the
    handler raises the 400 inside its own [try] block, the
    [except Exception] clause catches it, and the client gets a 500. *)
Theorem unsupported_type_answers_500 env file user_id w :
  supported_type (UploadFile.filename file) = false ->
  upload_cv env file user_id w =
    (inl (HTTPException 500
       "Error processing CV: 400: Only PDF, DOC, and DOCX files are supported"), w)
  /\ status (upload_cv env file user_id w).1 = 500.
Proof. intros H. by rewrite upload_unsupported. Qed.

Lemma unsupported_type_answers_500_witness :
  supported_type (UploadFile.filename file_txt) = false /\
  status (upload_cv env_ok file_txt None w_empty).1 = 500.
Proof.
  split; [reflexivity|].
  apply (unsupported_type_answers_500 env_ok file_txt None w_empty). reflexivity.
Defined.

(** C3. Once the uploaded bytes are on disk, every failing exit of the
    handler leaves them there: only the successful path removes the file. *)
Theorem failed_upload_keeps_file env file user_id w e :
  supported_type (UploadFile.filename file) = true ->
  raises env Makedirs = None -> raises env OpenFile = None ->
  raises env ReadUpload = None -> raises env WriteFile = None ->
  (upload_cv env file user_id w).1 = inl e ->
  fs (upload_cv env file user_id w).2 !! upload_path file = Some (UploadFile.content file).
Proof.
  intros Hs H1 H2 H3 H4. run_handler. fold (upload_path file).
  rewrite Hs, H1, H2, H3, H4. step_simpl.
  destruct (extract_text_from_file env _ _) as [?|text]; step_simpl;
    [intros _; apply lookup_insert_eq|].
  destruct (analyze_cv_text env text) as [?|cv_data]; step_simpl;
    [intros _; apply lookup_insert_eq|].
  destruct user_id as [u|]; step_simpl.
  - split_faults env [CommitFile; CommitInfo; RemoveFile];
      first [ discriminate | intros _; apply lookup_insert_eq ].
  - split_faults env [CommitUser; CommitFile; CommitInfo; RemoveFile];
      first [ discriminate | intros _; apply lookup_insert_eq ].
Qed.

Lemma failed_upload_keeps_file_witness :
  fs (upload_cv env_corrupt file_ada None w_empty).2 !! upload_path file_ada
  = Some (UploadFile.content file_ada).
Proof.
  apply (failed_upload_keeps_file env_corrupt file_ada None w_empty
           (HTTPException 500 "Error processing CV: corrupt document"));
    reflexivity.
Defined.

(** ** Partial updates *)

Lemma update_cv_info_missing env cv_id update_data w :
  query_extracted_info cv_id w = None ->
  update_cv_info env cv_id update_data w =
    (inl (HTTPException 404 "Extracted information not found"), w).
Proof. intros H. run_handler. by rewrite H. Qed.

(** An assignment that raises ends the request before the commit. *)
Lemma update_cv_info_raises env cv_id update_data w i e err :
  query_extracted_info cv_id w = Some (i, e) ->
  apply_update env e update_data = inl err ->
  update_cv_info env cv_id update_data w = (inl err, w).
Proof. intros H He. run_handler. by rewrite H, He. Qed.

Lemma update_cv_info_commit_fails env cv_id update_data w i e e' message :
  query_extracted_info cv_id w = Some (i, e) ->
  apply_update env e update_data = inr e' ->
  raises env CommitUpdate = Some message ->
  update_cv_info env cv_id update_data w = (inl (OtherException message), w).
Proof. intros H He Hc. run_handler. by rewrite H, He, Hc. Qed.

(** Once the commit has gone through the row is written, whether or not
    the refresh raises. *)
Lemma update_cv_info_commits env cv_id update_data w i e e' :
  query_extracted_info cv_id w = Some (i, e) ->
  apply_update env e update_data = inr e' ->
  raises env CommitUpdate = None ->
  update_cv_info env cv_id update_data w =
    (match raises env RefreshUpdate with
     | Some message => inl (OtherException message)
     | None => inr (PDict [("message", PStr "CV information updated successfully")])
     end,
     set_extracted_info (<[i := e']> (extracted_info w)) w).
Proof.
  intros H He Hc. run_handler. rewrite H, He, Hc. step_simpl.
  by destruct (raises env RefreshUpdate).
Qed.

Lemma query_extracted_info_lookup cv_id w i e :
  query_extracted_info cv_id w = Some (i, e) -> extracted_info w !! i = Some e.
Proof. intros H. by apply list_find_Some in H as (H & _). Qed.

Lemma apply_columns_cons e field value update_data :
  apply_columns e ((field, value) :: update_data) =
  apply_columns
    (if ExtractedInfo.is_column field
     then ExtractedInfo.setattr e field (stored_value field value) else e)
    update_data.
Proof. reflexivity. Qed.

(** The columns of the row after the loop of lines 180-185, for keys
    that name columns or nothing: the last value given for a column, the
    old value otherwise. *)
Lemma apply_columns_lookup e update_data field :
  apply_columns e update_data !! field =
  match last_value field update_data with
  | Some v => if ExtractedInfo.is_column field then Some (stored_value field v) else e !! field
  | None => e !! field
  end.
Proof.
  revert e. induction update_data as [|[k v] rest IH]; intros e; [reflexivity|].
  rewrite apply_columns_cons, IH. simpl.
  destruct (last_value field rest) as [v'|].
  - destruct (ExtractedInfo.is_column field) eqn:Hf; [reflexivity|].
    destruct (ExtractedInfo.is_column k) eqn:Hk; [|reflexivity].
    unfold ExtractedInfo.setattr. rewrite lookup_insert_ne; [reflexivity | congruence].
  - destruct (String.eqb_spec k field) as [->|Hne].
    + destruct (ExtractedInfo.is_column field); [|reflexivity].
      unfold ExtractedInfo.setattr. by rewrite lookup_insert_eq.
    + destruct (ExtractedInfo.is_column k); [|reflexivity].
      unfold ExtractedInfo.setattr. by rewrite lookup_insert_ne.
Qed.

Lemma hasattr_column env field :
  ExtractedInfo.is_column field = true -> hasattr env field = true.
Proof. intros H. unfold hasattr. by rewrite H. Qed.

Lemma setattr_column env e field value :
  ExtractedInfo.is_column field = true ->
  setattr env e field value = inr (ExtractedInfo.setattr e field value).
Proof. intros H. unfold setattr. by rewrite H. Qed.

Lemma apply_update_cons env e field value update_data :
  apply_update env e ((field, value) :: update_data) =
  match (if hasattr env field then setattr env e field (stored_value field value) else inr e) with
  | inl err => inl err
  | inr e' => apply_update env e' update_data
  end.
Proof.
  cbn [apply_update]. unfold stored_value.
  by destruct (hasattr env field), (bool_decide (field ∈ list_fields)).
Qed.

(** When every key names a column or nothing, no assignment raises and
    the loop leaves the row [apply_columns] describes. *)
Lemma apply_update_columns env e update_data :
  column_keys env update_data = true ->
  apply_update env e update_data = inr (apply_columns e update_data).
Proof.
  revert e. induction update_data as [|[k v] rest IH]; intros e H; [reflexivity|].
  cbn [column_keys forallb fst] in H. apply andb_true_iff in H as [Hk Hrest].
  rewrite apply_update_cons, apply_columns_cons.
  destruct (ExtractedInfo.is_column k) eqn:Hc.
  - rewrite hasattr_column, setattr_column by done. by apply IH.
  - simpl in Hk. apply negb_true_iff in Hk. rewrite Hk. by apply IH.
Qed.

Lemma candidate_field_is_column field :
  field ∈ candidate_fields -> ExtractedInfo.is_column field = true.
Proof.
  unfold candidate_fields. rewrite !elem_of_cons, elem_of_nil.
  intros [-> | [-> | [-> | [-> | [-> | [-> | [-> | [-> | []]]]]]]]]; reflexivity.
Qed.

Lemma field_keys_column_keys env update_data :
  field_keys env update_data = true -> column_keys env update_data = true.
Proof.
  unfold field_keys, column_keys. rewrite !forallb_forall. intros H kv Hkv.
  specialize (H kv Hkv). apply orb_true_iff in H as [H|H]; [|by rewrite H, orb_true_r].
  apply bool_decide_eq_true in H. by rewrite candidate_field_is_column.
Qed.

(** Such a mapping names no column besides the eight fields. *)
Lemma field_keys_last_value env update_data field :
  field_keys env update_data = true ->
  ExtractedInfo.is_column field = true -> field ∉ candidate_fields ->
  last_value field update_data = None.
Proof.
  intros H Hc Hf. induction update_data as [|[k v] rest IH]; [reflexivity|].
  cbn [field_keys forallb fst] in H. apply andb_true_iff in H as [Hk Hrest].
  simpl. rewrite (IH Hrest). destruct (String.eqb_spec k field) as [->|]; [|reflexivity].
  apply orb_true_iff in Hk as [Hk|Hk].
  - by apply bool_decide_eq_true in Hk.
  - apply negb_true_iff in Hk. by rewrite hasattr_column in Hk.
Qed.


(** The attributes that are not columns, on a plain Python object:
    [__class__] and a [__dict__] that is no [dict] end the request with a
    [TypeError] and nothing is stored; [__doc__] is assigned and no column
    changes; a [dict] assigned to [__dict__] becomes the row. *)
Example update_other_attributes_ex :
  update_cv_info env_ok 1 [("name", PStr "Eve"); ("__class__", PStr "str")] w_ada
  = (inl (OtherException "TypeError"), w_ada) /\
  update_cv_info env_ok 1 [("__dict__", PStr "x")] w_ada
  = (inl (OtherException "TypeError"), w_ada) /\
  extracted_info (update_cv_info env_ok 1 [("__doc__", PStr "x")] w_ada).2
  = extracted_info w_ada /\
  extracted_info (update_cv_info env_ok 1 [("__dict__", PDict [("name", PStr "Eve")])] w_ada).2
  = [{["name" := PStr "Eve"]}].
Proof. repeat split; vm_compute; reflexivity. Qed.




(** What an update can do to the world. *)
Lemma update_cv_info_tables env cv_id update_data w :
  let w' := (update_cv_info env cv_id update_data w).2 in
  fs w' = fs w /\ users w' = users w /\ cv_files w' = cv_files w /\ now w' = now w /\
  (w' = w \/
   exists i e e', query_extracted_info cv_id w = Some (i, e) /\
                  apply_update env e update_data = inr e' /\
                  raises env CommitUpdate = None /\
                  extracted_info w' = <[i := e']> (extracted_info w)).
Proof.
  destruct (query_extracted_info cv_id w) as [[i e]|] eqn:Hq.
  - destruct (apply_update env e update_data) as [err|e'] eqn:He.
    { rewrite (update_cv_info_raises env cv_id update_data w i e err) by done.
      simpl. auto 10. }
    destruct (raises env CommitUpdate) as [m|] eqn:Hc.
    + rewrite (update_cv_info_commit_fails env cv_id update_data w i e e' m) by done.
      simpl. auto 10.
    + rewrite (update_cv_info_commits env cv_id update_data w i e e') by done.
      simpl. repeat (split; [done|]). right. by exists i, e, e'.
  - rewrite update_cv_info_missing by done. simpl. auto 10.
Qed.

(** C5. A partial update that names only [skills] leaves the users and
    the file records as they are, and in every extracted-info row every
    attribute other than [skills]; in the updated row the email is the one
    stored before, and, when the commit goes through, [skills] is the JSON
    text of the new value. *)
Theorem skills_update_leaves_other_fields env cv_id value w i e :
  query_extracted_info cv_id w = Some (i, e) ->
  let w' := (update_cv_info env cv_id [("skills", value)] w).2 in
  users w' = users w /\ cv_files w' = cv_files w /\
  (forall j field, field <> "skills" ->
     (extracted_info w' !! j) ≫= (fun row => row !! field)
     = (extracted_info w !! j) ≫= (fun row => row !! field)) /\
  (exists e', extracted_info w' !! i = Some e' /\
     ExtractedInfo.getattr e' "email" = ExtractedInfo.getattr e "email" /\
     (raises env CommitUpdate = None ->
      ExtractedInfo.getattr e' "skills" = PStr (Json.dumps value))).
Proof.
  intros Hq w'.
  pose proof (query_extracted_info_lookup _ _ _ _ Hq) as Hi.
  assert (forall field, field <> "skills" ->
            apply_columns e [("skills", value)] !! field = e !! field) as Hframe.
  { intros field Hne. rewrite apply_columns_lookup.
    change (last_value field [("skills", value)])
      with (if String.eqb "skills" field then Some value else None).
    destruct (String.eqb_spec "skills" field); [congruence | reflexivity]. }
  assert (apply_update env e [("skills", value)]
          = inr (apply_columns e [("skills", value)])) as Hloop
    by (by apply apply_update_columns).
  destruct (raises env CommitUpdate) as [m|] eqn:Hc; unfold w'.
  - rewrite (update_cv_info_commit_fails env cv_id _ w i e _ m) by done.
    repeat (split; [done|]). exists e. by repeat (split; [done|]).
  - rewrite (update_cv_info_commits env cv_id _ w i e _ Hq Hloop Hc).
    cbn [snd users cv_files extracted_info set_extracted_info].
    split; [done|]. split; [done|]. split.
    + intros j field Hne. destruct (decide (j = i)) as [->|Hj].
      * rewrite list_lookup_insert_eq by (by eapply lookup_lt_Some).
        rewrite Hi. simpl. by apply Hframe.
      * by rewrite list_lookup_insert_ne.
    + exists (apply_columns e [("skills", value)]).
      split; [by apply list_lookup_insert_eq; eapply lookup_lt_Some|].
      split; [unfold ExtractedInfo.getattr; by rewrite Hframe|].
      intros _. unfold ExtractedInfo.getattr. by rewrite apply_columns_lookup.
Qed.

Lemma skills_update_leaves_other_fields_witness :
  exists e', extracted_info
     (update_cv_info env_ok 1 [("skills", PList [PStr "rocq"])] w_ada).2 !! 0%nat = Some e' /\
    ExtractedInfo.getattr e' "email" = PStr "ada@x.org".
Proof.
  destruct (skills_update_leaves_other_fields env_ok 1 (PList [PStr "rocq"]) w_ada 0%nat
              (stored_info cv_ada w_empty) eq_refl) as (_ & _ & _ & e' & He & Hm & _).
  exists e'. split; [exact He | exact Hm].
Defined.

(** ** Listing *)

(** C9. A file record with no extracted-info row is listed all the same,
    under the name "Unknown" and with an empty email. *)
Theorem list_cvs_defaults_missing_info w cv :
  cv ∈ cv_files w ->
  query_extracted_info (CVFile.id cv) w = None ->
  exists summaries,
    list_cvs w = (inr (PList summaries), w) /\
    length summaries = length (cv_files w) /\
    PDict [("id", PInt (CVFile.id cv));
           ("filename", PStr (CVFile.filename cv));
           ("uploaded_at", PInt (CVFile.uploaded_at cv));
           ("file_size", PInt (CVFile.file_size cv));
           ("name", PStr "Unknown");
           ("email", PStr "")] ∈ summaries.
Proof.
  intros Hcv Hq. exists (summary w <$> cv_files w).
  split; [reflexivity|]. split; [by rewrite length_fmap|].
  apply list_elem_of_fmap. exists cv. split; [|done].
  unfold summary. by rewrite Hq.
Qed.

Lemma list_cvs_defaults_missing_info_witness :
  exists summaries,
    list_cvs w_file_only = (inr (PList summaries), w_file_only) /\
    length summaries = 1%nat /\
    PDict [("id", PInt 1); ("filename", PStr "ada.pdf");
           ("uploaded_at", PInt 1700000000); ("file_size", PInt 4);
           ("name", PStr "Unknown"); ("email", PStr "")] ∈ summaries.
Proof.
  apply (list_cvs_defaults_missing_info w_file_only
           (stored_cv_file file_ada None "ada" w_empty)).
  - vm_compute. apply list_elem_of_here.
  - reflexivity.
Defined.

(** ** Fetching what an upload stored *)

Lemma next_id_above ids : Forall (fun x => x < next_id ids) ids.
Proof.
  unfold next_id. induction ids as [|x ids IH]; [constructor|].
  constructor; simpl; [lia|].
  eapply Forall_impl; [exact IH|]. simpl. lia.
Qed.

Lemma list_find_fresh_id {A} (id_of : A -> Z) (l : list A) :
  list_find (fun x => id_of x = next_id (id_of <$> l)) l = None.
Proof.
  apply list_find_None. apply Forall_forall. intros x Hx Heq.
  pose proof (next_id_above (id_of <$> l)) as Hall.
  rewrite Forall_forall in Hall.
  specialize (Hall (id_of x) (list_elem_of_fmap_2 id_of l x Hx)). lia.
Qed.

(** The file row an upload appends is the one its id selects. *)
Lemma query_cv_file_stored file user_id text w w' :
  cv_files w' = cv_files w ++ [stored_cv_file file user_id text w] ->
  query_cv_file (next_id (CVFile.id <$> cv_files w)) w'
  = Some (stored_cv_file file user_id text w).
Proof.
  intros Hf. unfold query_cv_file. rewrite Hf.
  rewrite list_find_app_r by apply list_find_fresh_id.
  simpl. by rewrite decide_True.
Qed.

(** So is the extracted-info row, when no older row carries the new id. *)
Lemma query_extracted_info_stored cv_data w w' :
  query_extracted_info (next_id (CVFile.id <$> cv_files w)) w = None ->
  extracted_info w' = extracted_info w ++ [stored_info cv_data w] ->
  query_extracted_info (next_id (CVFile.id <$> cv_files w)) w'
  = Some (length (extracted_info w), stored_info cv_data w).
Proof.
  intros Hq Hi. unfold query_extracted_info in *. rewrite Hi.
  rewrite list_find_app_r by exact Hq.
  cbn [list_find]. rewrite decide_True.
  - simpl. first [reflexivity | by rewrite Nat.add_0_r].
  - change (ExtractedInfo.getattr (stored_info cv_data w) "cv_file_id")
      with (PInt (next_id (CVFile.id <$> cv_files w))).
    simpl. by rewrite Z.eqb_refl.
Qed.

Lemma loads_or_empty_dumps v : loads_or_empty (PStr (Json.dumps v)) = inr v.
Proof.
  unfold loads_or_empty, json_loads, truthy.
  destruct (String.eqb_spec (Json.dumps v) "") as [He|_];
    [by apply JsonFacts.dumps_nonempty in He|].
  simpl. by rewrite JsonFacts.loads_dumps.
Qed.

Lemma get_cv_analysis_stored file user_id text cv_data w w' :
  query_extracted_info (next_id (CVFile.id <$> cv_files w)) w = None ->
  cv_files w' = cv_files w ++ [stored_cv_file file user_id text w] ->
  extracted_info w' = extracted_info w ++ [stored_info cv_data w] ->
  get_cv_analysis (next_id (CVFile.id <$> cv_files w)) w'
  = (inr (fetched_view file cv_data w), w').
Proof.
  intros Hq Hf Hi.
  unfold get_cv_analysis, mbind, M_bind, mret, M_ret, bind, ret, raise, get_world, lift.
  rewrite (query_cv_file_stored file user_id text w w' Hf).
  rewrite (query_extracted_info_stored cv_data w w' Hq Hi).
  change (ExtractedInfo.getattr (stored_info cv_data w) "education")
    with (PStr (Json.dumps (dict_get cv_data "education" (PList [])))).
  change (ExtractedInfo.getattr (stored_info cv_data w) "experience")
    with (PStr (Json.dumps (dict_get cv_data "experience" (PList [])))).
  change (ExtractedInfo.getattr (stored_info cv_data w) "skills")
    with (PStr (Json.dumps (dict_get cv_data "skills" (PList [])))).
  change (ExtractedInfo.getattr (stored_info cv_data w) "languages")
    with (PStr (Json.dumps (dict_get cv_data "languages" (PList [])))).
  rewrite !loads_or_empty_dumps. reflexivity.
Qed.

(** An upload that returns has written both rows and answers with the
    analysis result. *)
Lemma upload_cv_returns env file user_id w r w' :
  upload_cv env file user_id w = (inr r, w') ->
  exists text cv_data,
    r = upload_response cv_data w /\
    now w' = now w /\
    users w' = users_after user_id cv_data w /\
    cv_files w' = cv_files w ++ [stored_cv_file file user_id text w] /\
    extracted_info w' = extracted_info w ++ [stored_info cv_data w].
Proof.
  intros Hu. destruct (upload_cv_outcome env file user_id w) as [Hn H].
  rewrite Hu in Hn, H. cbn [fst snd] in Hn, H.
  destruct H as [([m H] & _)|[(? & ? & [m H] & _)|
                  (text & cv_data & _ & _ & _ & Hus & Hf & Hi & [[H _]|[[m H] _]])]];
    try discriminate H.
  injection H as ->. by exists text, cv_data.
Qed.

(** C6, as amended. When no extracted-info row already carries the id the
    new file record gets (so it is unless an earlier update rewrote a
    row's [cv_file_id]), fetching the record a successful upload created
    returns each of the eight CandidateRecord fields as the upload
    response has it; a field the analysis left out reads back as the
    default the upload stored for it. *)
Theorem fetch_after_upload env file user_id w r w' :
  query_extracted_info (next_id (CVFile.id <$> cv_files w)) w = None ->
  upload_cv env file user_id w = (inr r, w') ->
  exists view,
    get_cv_analysis (response_cv_id r) w' = (inr view, w') /\
    Forall (fun field => fetched_field view field = uploaded_field r field) candidate_fields.
Proof.
  intros Hq Hu.
  destruct (upload_cv_returns env file user_id w r w' Hu)
    as (text & cv_data & -> & _ & _ & Hf & Hi).
  exists (fetched_view file cv_data w). split.
  - change (response_cv_id (upload_response cv_data w))
      with (next_id (CVFile.id <$> cv_files w)).
    by apply (get_cv_analysis_stored file user_id text).
  - unfold candidate_fields. repeat constructor.
Qed.

Lemma fetch_after_upload_witness :
  exists view,
    get_cv_analysis 1 w_ada = (inr view, w_ada) /\
    Forall (fun field =>
              fetched_field view field
              = uploaded_field (upload_response cv_ada w_empty) field) candidate_fields.
Proof.
  apply (fetch_after_upload env_ok file_ada None w_empty
           (upload_response cv_ada w_empty) w_ada); reflexivity.
Defined.

(** C6, as stated, fails: after an update has set the [cv_file_id] of an
    older row to 2, the upload that creates file 2 returns Bob's record,
    and fetching file 2 returns Ada's. *)
Lemma fetch_after_upload_returns_older_row :
  ~ round_trip env_ok file_bob None w_redirected.
Proof.
  intros H.
  destruct (H (upload_response cv_bob w_redirected)
              (upload_cv env_ok file_bob None w_redirected).2)
    as (view & Hv & Hall); [by vm_compute|].
  vm_compute in Hv. injection Hv as <-.
  apply Forall_cons in Hall as [Hname _].
  vm_compute in Hname. discriminate Hname.
Qed.

(** ** Listing after two uploads *)

Lemma list_find_new_id {A} (id_of : A -> Z) (l : list A) (x : A) (rest : list A) :
  id_of x = next_id (id_of <$> l) ->
  list_find (fun y => id_of y = next_id (id_of <$> l)) (l ++ x :: rest)
  = Some (length l, x).
Proof.
  intros Hx. rewrite list_find_app_r by apply list_find_fresh_id.
  cbn [list_find]. rewrite decide_True by done. simpl.
  first [reflexivity | by rewrite Nat.add_0_r].
Qed.

(** C8, as amended. After two successful uploads into empty tables the
    listing has exactly two summaries, in upload order, each with its id,
    file name, upload time, size, and the name and email extracted from
    that CV. That email is the owner's email whenever the upload created
    the owner, that is, when no [user_id] came with the request. *)
Theorem list_after_two_uploads env file1 user_id1 file2 user_id2 w r1 w1 r2 w2 :
  cv_files w = [] -> extracted_info w = [] ->
  upload_cv env file1 user_id1 w = (inr r1, w1) ->
  upload_cv env file2 user_id2 w1 = (inr r2, w2) ->
  list_cvs w2 =
    (inr (PList [summary_of file1 1 (now w) r1; summary_of file2 2 (now w) r2]), w2)
  /\ (user_id1 = None ->
      exists cv, cv_files w2 !! 0%nat = Some cv /\
                 owner_email w2 cv = Some (uploaded_field r1 "email"))
  /\ (user_id2 = None ->
      exists cv, cv_files w2 !! 1%nat = Some cv /\
                 owner_email w2 cv = Some (uploaded_field r2 "email")).
Proof.
  intros Hf0 Hi0 Hu1 Hu2.
  destruct (upload_cv_returns env file1 user_id1 w r1 w1 Hu1)
    as (text1 & cv1 & -> & Hn1 & Hus1 & Hf1 & Hi1).
  destruct (upload_cv_returns env file2 user_id2 w1 r2 w2 Hu2)
    as (text2 & cv2 & -> & Hn2 & Hus2 & Hf2 & Hi2).
  clear Hu1 Hu2.
  split; [|split].
  - assert (next_id (CVFile.id <$> cv_files w) = 1) as Hid1
      by (rewrite Hf0; reflexivity).
    assert (next_id (CVFile.id <$> cv_files w1) = 2) as Hid2.
    { rewrite Hf1, Hf0. simpl. rewrite Hf0. reflexivity. }
    assert (query_extracted_info 1 w1 = Some (0%nat, stored_info cv1 w)) as Hq1.
    { pose proof (query_extracted_info_stored cv1 w w1) as H.
      rewrite Hid1, Hi0 in H. apply H; [|by rewrite Hi1, Hi0].
      unfold query_extracted_info. by rewrite Hi0. }
    assert (query_extracted_info 2 w1 = None) as Hq2.
    { unfold query_extracted_info. rewrite Hi1, Hi0. simpl app. cbn [list_find].
      change (ExtractedInfo.getattr (stored_info cv1 w) "cv_file_id")
        with (PInt (next_id (CVFile.id <$> cv_files w))).
      rewrite Hid1. rewrite decide_False; [reflexivity | simpl; tauto]. }
    assert (query_extracted_info 1 w2 = Some (0%nat, stored_info cv1 w)) as Hq1'.
    { unfold query_extracted_info in *. rewrite Hi2. by apply list_find_app_l. }
    assert (query_extracted_info 2 w2 = Some (1%nat, stored_info cv2 w1)) as Hq2'.
    { pose proof (query_extracted_info_stored cv2 w1 w2) as H.
      rewrite Hid2 in H. rewrite (H Hq2 Hi2). by rewrite Hi1, Hi0. }
    unfold list_cvs, mbind, M_bind, mret, M_ret, bind, ret, get_world.
    rewrite Hf2, Hf1, Hf0. simpl app. cbn [fmap list_fmap]. unfold summary.
    change (CVFile.id (stored_cv_file file1 user_id1 text1 w))
      with (next_id (CVFile.id <$> cv_files w)).
    change (CVFile.id (stored_cv_file file2 user_id2 text2 w1))
      with (next_id (CVFile.id <$> cv_files w1)).
    change (CVFile.uploaded_at (stored_cv_file file2 user_id2 text2 w1)) with (now w1).
    rewrite Hid1, Hid2, Hq1', Hq2', Hn1. reflexivity.
  - intros ->. exists (stored_cv_file file1 None text1 w).
    split; [by rewrite Hf2, Hf1, Hf0|].
    unfold owner_email. rewrite Hus2.
    assert (users_after user_id2 cv2 w1
            = users w ++ stored_user cv1 w ::
                match user_id2 with Some _ => [] | None => [stored_user cv2 w1] end) as ->.
    { unfold users_after at 1. rewrite Hus1. unfold users_after.
      destruct user_id2; [reflexivity | by rewrite <- app_assoc]. }
    change (CVFile.user_id (stored_cv_file file1 None text1 w))
      with (next_id (User.id <$> users w)).
    by rewrite (list_find_new_id User.id).
  - intros ->. exists (stored_cv_file file2 None text2 w1).
    split; [by rewrite Hf2, Hf1, Hf0|].
    unfold owner_email. rewrite Hus2.
    change (CVFile.user_id (stored_cv_file file2 None text2 w1))
      with (next_id (User.id <$> users w1)).
    unfold users_after. by rewrite (list_find_new_id User.id).
Qed.

Lemma list_after_two_uploads_witness :
  list_cvs w_ada_bob =
    (inr (PList [summary_of file_ada 1 1700000000 (upload_response cv_ada w_empty);
                 summary_of file_bob 2 1700000000 (upload_response cv_bob w_ada)]),
     w_ada_bob).
Proof.
  apply (list_after_two_uploads env_ok file_ada None file_bob None w_empty
           (upload_response cv_ada w_empty) w_ada
           (upload_response cv_bob w_ada) w_ada_bob); reflexivity.
Defined.

(** C8, as stated, fails: when the second upload names the first upload's
    user as its owner, the listing shows the email extracted from the
    second CV, not the owner's. *)
Lemma listing_shows_extracted_email :
  ~ lists_owner_emails env_ok file_ada None file_bob (Some 1) w_empty.
Proof.
  intros H.
  destruct (H (upload_response cv_ada w_empty) w_ada
              (upload_response cv_bob w_ada) w_ada_owns_bob)
    as (s1 & s2 & Hl & _ & _ & Hown); [by vm_compute | by vm_compute |].
  vm_compute in Hl. injection Hl as <- <-.
  specialize (Hown 1%nat _ (stored_cv_file file_bob (Some 1) "bob" w_ada) eq_refl).
  vm_compute in Hown. specialize (Hown eq_refl). discriminate Hown.
Qed.

(** ** The list-valued columns *)

Lemma json_text_dumps v : json_text (PStr (Json.dumps v)).
Proof.
  exists (Json.dumps v), v.
  split; [reflexivity|]. split; [apply JsonFacts.dumps_nonempty | apply JsonFacts.loads_dumps].
Qed.

Lemma json_text_decodes v : json_text v -> exists x, loads_or_empty v = inr x.
Proof.
  intros (s & x & -> & Hs & Hx). exists x.
  unfold loads_or_empty, json_loads, truthy.
  destruct (String.eqb_spec s "") as [->|_]; [done|]. simpl. by rewrite Hx.
Qed.

Lemma list_field_cases field :
  field ∈ list_fields ->
  field = "education" \/ field = "experience" \/ field = "skills" \/ field = "languages".
Proof. unfold list_fields. rewrite !elem_of_cons, elem_of_nil. tauto. Qed.










(** * Further properties of the handlers *)

(** ** The outcome of an upload *)

(** X1. An upload answers 200 exactly when every step goes through, and
    500 in every other case: no failure leaves the handler with another
    status. *)
Theorem upload_status env file user_id w :
  status (upload_cv env file user_id w).1
  = if upload_succeeds env file user_id then 200 else 500.
Proof.
  unfold upload_succeeds, no_fault. run_handler.
  destruct (supported_type (UploadFile.filename file)); step_simpl; [|reflexivity].
  split_faults env [Makedirs; OpenFile; ReadUpload; WriteFile]; try reflexivity.
  destruct (extract_text_from_file env _ _) as [?|text]; step_simpl; [reflexivity|].
  destruct (analyze_cv_text env text) as [?|cv_data]; step_simpl; [reflexivity|].
  destruct user_id as [u|]; step_simpl.
  - split_faults env [CommitFile; CommitInfo; RemoveFile]; reflexivity.
  - split_faults env [CommitUser; CommitFile; CommitInfo; RemoveFile]; reflexivity.
Qed.

(** X2. A successful upload leaves no file at the path it wrote to, also
    when a file was at that path before the request: the bytes that were
    there are gone. *)
Theorem upload_removes_file env file user_id w r w' :
  upload_cv env file user_id w = (inr r, w') ->
  fs w' !! upload_path file = None.
Proof.
  intros Hu. destruct (upload_cv_outcome env file user_id w) as [_ H].
  rewrite Hu in H. cbn [fst snd] in H.
  destruct H as [([m H] & _)|[(? & ? & [m H] & _)|
                  (text & cv_data & _ & _ & _ & _ & _ & _ & [[_ Hfs]|[[m H] _]])]];
    try discriminate H.
  rewrite Hfs. apply lookup_delete_eq.
Qed.

Lemma upload_removes_file_witness :
  fs (upload_cv env_ok file_ada None (set_fs {["uploads/ada.pdf" := [Byte.x00]]} w_empty)).2
    !! upload_path file_ada = None.
Proof.
  exact (upload_removes_file env_ok file_ada None
           (set_fs {["uploads/ada.pdf" := [Byte.x00]]} w_empty)
           (upload_response cv_ada w_empty) _ eq_refl).
Defined.

(** X3. The owner is committed before the file record: when a request
    without [user_id] gets as far as the user's commit, the new user row
    stays in the table whatever happens next; if the file's commit then
    raises, the request answers 500 and has stored a user and nothing
    else. *)
Theorem upload_keeps_user_row env file w text cv_data :
  supported_type (UploadFile.filename file) = true ->
  raises env Makedirs = None -> raises env OpenFile = None ->
  raises env ReadUpload = None -> raises env WriteFile = None ->
  extract_text_from_file env (upload_path file) (UploadFile.content file) = inr text ->
  analyze_cv_text env text = inr cv_data ->
  raises env CommitUser = None ->
  let r := (upload_cv env file None w).1 in
  let w' := (upload_cv env file None w).2 in
  users w' = users w ++ [stored_user cv_data w] /\
  (raises env CommitFile <> None ->
   status r = 500 /\ cv_files w' = cv_files w /\ extracted_info w' = extracted_info w).
Proof.
  intros Hs H1 H2 H3 H4 Ht Hd Hu. run_handler. fold (upload_path file).
  rewrite Hs, H1, H2, H3, H4. step_simpl. rewrite Ht. step_simpl.
  rewrite Hd. step_simpl. rewrite Hu. step_simpl.
  split_faults env [CommitFile; CommitInfo; RemoveFile];
    (split; [reflexivity|]); intros Hc; first [done | congruence].
Qed.

Lemma upload_keeps_user_row_witness :
  users (upload_cv env_file_commit_fails file_ada None w_empty).2
  = users w_empty ++ [stored_user cv_ada w_empty].
Proof.
  apply (upload_keeps_user_row env_file_commit_fails file_ada w_empty "ada" cv_ada);
    reflexivity.
Defined.

(** X4. A [user_id] that comes with the request is stored as it is: the
    users table is neither read nor written, so the file row of a
    successful upload carries the id whether or not a user has it. *)
Theorem upload_stores_user_id_unchecked env file u w :
  users (upload_cv env file (Some u) w).2 = users w /\
  (forall r w', upload_cv env file (Some u) w = (inr r, w') ->
     exists f, cv_files w' = cv_files w ++ [f] /\ CVFile.user_id f = u).
Proof.
  split.
  - run_handler.
    destruct (supported_type (UploadFile.filename file)); step_simpl; [|reflexivity].
    split_faults env [Makedirs; OpenFile; ReadUpload; WriteFile]; try reflexivity.
    destruct (extract_text_from_file env _ _) as [?|text]; step_simpl; [reflexivity|].
    destruct (analyze_cv_text env text) as [?|cv_data]; step_simpl; [reflexivity|].
    split_faults env [CommitFile; CommitInfo; RemoveFile]; reflexivity.
  - intros r w' Hu.
    destruct (upload_cv_returns env file (Some u) w r w' Hu)
      as (text & cv_data & _ & _ & _ & Hf & _).
    by exists (stored_cv_file file (Some u) text w).
Qed.

Lemma upload_stores_user_id_unchecked_witness :
  exists f, cv_files (upload_cv env_ok file_ada (Some 42) w_empty).2 = cv_files w_empty ++ [f]
            /\ CVFile.user_id f = 42.
Proof.
  apply (proj2 (upload_stores_user_id_unchecked env_ok file_ada 42 w_empty)
           (upload_response cv_ada w_empty)
           (upload_cv env_ok file_ada (Some 42) w_empty).2).
  reflexivity.
Defined.

(** The three tables after an upload, whatever its outcome. *)
Lemma upload_cv_tables_grow env file user_id w :
  let w' := (upload_cv env file user_id w).2 in
  (exists us, users w' = users w ++ us /\ (length us <= 1)%nat) /\
  (exists cs, cv_files w' = cv_files w ++ cs /\ (length cs <= 1)%nat) /\
  (exists es, extracted_info w' = extracted_info w ++ es /\ (length es <= 1)%nat).
Proof.
  assert (forall {A} (l : list A), exists k, l = l ++ k /\ (length k <= 1)%nat) as Hsame
    by (intros A l; exists []; by rewrite app_nil_r; simpl; split; [|lia]).
  assert (forall {A} (l : list A) x, exists k, l ++ [x] = l ++ k /\ (length k <= 1)%nat)
    as Hone by (intros A l x; by exists [x]).
  run_handler.
  destruct (supported_type (UploadFile.filename file)); step_simpl; [|by auto].
  split_faults env [Makedirs; OpenFile; ReadUpload; WriteFile]; try (by auto).
  destruct (extract_text_from_file env _ _) as [?|text]; step_simpl; [by auto|].
  destruct (analyze_cv_text env text) as [?|cv_data]; step_simpl; [by auto|].
  destruct user_id as [u|]; step_simpl.
  - split_faults env [CommitFile; CommitInfo; RemoveFile];
      by (split; [|split]; first [apply Hsame | apply Hone]).
  - split_faults env [CommitUser; CommitFile; CommitInfo; RemoveFile];
      by (split; [|split]; first [apply Hsame | apply Hone]).
Qed.

(** X5. An upload only appends: whatever its outcome, the rows the three
    tables held before the request are still there, unchanged and in the
    same positions, and each table has at most one row more. *)
Theorem upload_appends_only env file user_id w :
  let w' := (upload_cv env file user_id w).2 in
  (exists us, users w' = users w ++ us /\ (length us <= 1)%nat) /\
  (exists cs, cv_files w' = cv_files w ++ cs /\ (length cs <= 1)%nat) /\
  (exists es, extracted_info w' = extracted_info w ++ es /\ (length es <= 1)%nat).
Proof. exact (upload_cv_tables_grow env file user_id w). Qed.

(** ** Fetching and updating a stored record *)

Lemma loads_or_empty_decoded v : json_text v -> loads_or_empty v = inr (decoded v).
Proof.
  intros Hv. destruct (json_text_decodes v Hv) as [x Hx].
  unfold decoded. by rewrite Hx.
Qed.




(** The answer depends on the two rows the queries select only. *)
Lemma get_cv_analysis_queries cv_id w1 w2 :
  query_cv_file cv_id w1 = query_cv_file cv_id w2 ->
  snd <$> query_extracted_info cv_id w1 = snd <$> query_extracted_info cv_id w2 ->
  (get_cv_analysis cv_id w1).1 = (get_cv_analysis cv_id w2).1.
Proof.
  intros Hf Hq.
  unfold get_cv_analysis, mbind, M_bind, mret, M_ret, bind, ret, raise, get_world, lift.
  rewrite Hf. destruct (query_cv_file cv_id w2) as [f|]; [|reflexivity].
  destruct (query_extracted_info cv_id w1) as [[i1 e1]|],
           (query_extracted_info cv_id w2) as [[i2 e2]|]; simplify_eq/=; [|reflexivity].
  destruct (loads_or_empty (ExtractedInfo.getattr e2 "education")); [reflexivity|].
  destruct (loads_or_empty (ExtractedInfo.getattr e2 "experience")); [reflexivity|].
  destruct (loads_or_empty (ExtractedInfo.getattr e2 "skills")); [reflexivity|].
  destruct (loads_or_empty (ExtractedInfo.getattr e2 "languages")); reflexivity.
Qed.

(** A handler that returns a view has found both rows. *)
Lemma get_cv_analysis_inr cv_id w view :
  (get_cv_analysis cv_id w).1 = inr view ->
  exists f i e, query_cv_file cv_id w = Some f /\ query_extracted_info cv_id w = Some (i, e).
Proof.
  unfold get_cv_analysis, mbind, M_bind, mret, M_ret, bind, ret, raise, get_world, lift.
  destruct (query_cv_file cv_id w) as [f|]; [|discriminate].
  destruct (query_extracted_info cv_id w) as [[i e]|]; [|discriminate].
  intros _. by exists f, i, e.
Qed.

Section list_find_insert.
Context {A : Type} (P : A -> Prop) `{Hdec : !forall x, Decision (P x)}.

Lemma list_find_insert_found (l : list A) i x x' :
  list_find P l = Some (i, x) -> P x' -> list_find P (<[i := x']> l) = Some (i, x').
Proof.
  intros Hfind Hx'. apply list_find_Some in Hfind as (Hi & _ & Hlt).
  apply list_find_Some. split; [|split; [done|]].
  - apply list_lookup_insert_eq. by eapply lookup_lt_Some.
  - intros j y Hj Hji. rewrite list_lookup_insert_ne in Hj by lia. by eapply Hlt.
Qed.

Lemma list_find_insert_unmatched (l : list A) i x x' :
  l !! i = Some x -> ~ P x -> ~ P x' -> list_find P (<[i := x']> l) = list_find P l.
Proof.
  revert i. induction l as [|y l IH]; intros [|i] Hi Hx Hx'; simplify_eq/=.
  - by rewrite !decide_False.
  - destruct (decide (P y)); [reflexivity|]. by rewrite (IH i).
Qed.
End list_find_insert.

Lemma getattr_apply_columns e update_data field :
  ExtractedInfo.is_column field = true ->
  ExtractedInfo.getattr (apply_columns e update_data) field
  = match last_value field update_data with
    | Some v => stored_value field v
    | None => ExtractedInfo.getattr e field
    end.
Proof.
  intros Hf. unfold ExtractedInfo.getattr. rewrite apply_columns_lookup, Hf.
  by destruct (last_value field update_data).
Qed.

(** An update that does not name [cv_file_id] keeps the updated row where
    the query for its file finds it. *)
Lemma query_extracted_info_updated cv_id w i e update_data :
  query_extracted_info cv_id w = Some (i, e) ->
  last_value "cv_file_id" update_data = None ->
  query_extracted_info cv_id
    (set_extracted_info (<[i := apply_columns e update_data]> (extracted_info w)) w)
  = Some (i, apply_columns e update_data).
Proof.
  intros Hq Hk. unfold query_extracted_info in *.
  cbn [extracted_info set_extracted_info].
  eapply list_find_insert_found; [exact Hq|].
  rewrite getattr_apply_columns, Hk by reflexivity.
  by apply list_find_Some in Hq as (_ & Hp & _).
Qed.

Lemma field_keys_keep_cv_file_id env update_data :
  field_keys env update_data = true -> last_value "cv_file_id" update_data = None.
Proof.
  intros H. apply (field_keys_last_value env); [done | reflexivity |].
  unfold candidate_fields. rewrite !elem_of_cons, elem_of_nil. intuition discriminate.
Qed.

(** The outcome of an update whose keys are CandidateRecord fields or no
    attributes, for an existing record. *)
Lemma update_cv_info_fields env cv_id update_data w i e :
  query_extracted_info cv_id w = Some (i, e) ->
  field_keys env update_data = true ->
  update_cv_info env cv_id update_data w =
    match raises env CommitUpdate with
    | Some message => (inl (OtherException message), w)
    | None =>
        (match raises env RefreshUpdate with
         | Some message => inl (OtherException message)
         | None => inr (PDict [("message", PStr "CV information updated successfully")])
         end,
         set_extracted_info (<[i := apply_columns e update_data]> (extracted_info w)) w)
    end.
Proof.
  intros Hq Hk.
  pose proof (apply_update_columns env e update_data (field_keys_column_keys _ _ Hk)) as He.
  destruct (raises env CommitUpdate) as [m|] eqn:Hc.
  - exact (update_cv_info_commit_fails env cv_id update_data w i e _ m Hq He Hc).
  - exact (update_cv_info_commits env cv_id update_data w i e _ Hq He Hc).
Qed.

Lemma candidate_field_cases field :
  field ∈ candidate_fields ->
  (field = "name" \/ field = "email" \/ field = "phone" \/ field = "address") \/
  field ∈ list_fields.
Proof.
  unfold candidate_fields, list_fields. rewrite !elem_of_cons, !elem_of_nil. tauto.
Qed.

Lemma fetched_field_view_of f e field :
  field ∈ candidate_fields ->
  fetched_field (view_of f e) field
  = if bool_decide (field ∈ list_fields)
    then decoded (ExtractedInfo.getattr e field) else ExtractedInfo.getattr e field.
Proof.
  intros Hf. destruct (candidate_field_cases field Hf) as [[-> | [-> | [-> | ->]]]|Hl];
    [reflexivity..|].
  by destruct (list_field_cases field Hl) as [-> | [-> | [-> | ->]]].
Qed.



(** X7. An update of one record whose keys are CandidateRecord fields or
    no attributes of the record leaves the answer of [get_cv_analysis]
    for every other id as it was. *)
Theorem update_leaves_other_records env cv_id update_data w other :
  field_keys env update_data = true ->
  other <> cv_id ->
  (get_cv_analysis other (update_cv_info env cv_id update_data w).2).1
  = (get_cv_analysis other w).1.
Proof.
  intros Hk Hne.
  destruct (update_cv_info_tables env cv_id update_data w) as (_ & _ & Hf & _ & Ht).
  apply get_cv_analysis_queries.
  - unfold query_cv_file. by rewrite Hf.
  - unfold query_extracted_info at 1.
    destruct Ht as [->|(i & e & e' & Hq & He & _ & Ht)]; [reflexivity|]. rewrite Ht.
    rewrite apply_update_columns in He by (by apply field_keys_column_keys).
    injection He as <-.
    f_equal. unfold query_extracted_info in *.
    apply list_find_Some in Hq as (Hi & Hp & _).
    assert (forall v, Is_true (is_int v cv_id) -> ~ Is_true (is_int v other)) as Hother.
    { intros [] Hv Hv'; simpl in *; try done.
      apply Is_true_true, Z.eqb_eq in Hv, Hv'. congruence. }
    eapply list_find_insert_unmatched; [exact Hi | by apply Hother |].
    rewrite getattr_apply_columns, (field_keys_keep_cv_file_id env) by done.
    by apply Hother.
Qed.

Lemma update_leaves_other_records_witness :
  (get_cv_analysis 2
     (update_cv_info env_ok 1 [("name", PStr "Ada L."); ("skills", PList [])] w_ada_bob).2).1
  = (get_cv_analysis 2 w_ada_bob).1.
Proof.
  apply (update_leaves_other_records env_ok 1
           [("name", PStr "Ada L."); ("skills", PList [])] w_ada_bob 2);
    [reflexivity | discriminate].
Defined.


Lemma last_value_app field u1 u2 :
  last_value field (u1 ++ u2)
  = match last_value field u2 with Some v => Some v | None => last_value field u1 end.
Proof.
  induction u1 as [|[k v] u1 IH]; simpl; [by destruct (last_value field u2)|].
  rewrite IH. by destruct (last_value field u2).
Qed.



Lemma apply_columns_idempotent e update_data :
  apply_columns (apply_columns e update_data) update_data = apply_columns e update_data.
Proof.
  apply map_eq. intros field. rewrite !apply_columns_lookup.
  destruct (last_value field update_data); [|reflexivity].
  by destruct (ExtractedInfo.is_column field).
Qed.

(** X9. Repeating an update changes nothing more: the second request
    gets the same answer and leaves the world the first one left. The
    keys of the update are CandidateRecord fields or no attributes of the
    record. *)
Theorem update_is_idempotent env cv_id update_data w :
  field_keys env update_data = true ->
  update_cv_info env cv_id update_data (update_cv_info env cv_id update_data w).2
  = update_cv_info env cv_id update_data w.
Proof.
  intros Hk.
  destruct (query_extracted_info cv_id w) as [[i e]|] eqn:Hq.
  - rewrite (update_cv_info_fields env cv_id update_data w i e Hq Hk).
    destruct (raises env CommitUpdate) as [m|] eqn:Hc; cbn [snd].
    + by rewrite (update_cv_info_fields env cv_id update_data w i e Hq Hk), Hc.
    + rewrite (update_cv_info_fields env cv_id update_data _ i (apply_columns e update_data)),
        Hc; [| apply query_extracted_info_updated;
               [done | by eapply field_keys_keep_cv_file_id] | done].
      cbn [extracted_info set_extracted_info].
      rewrite list_insert_insert_eq, apply_columns_idempotent. reflexivity.
  - rewrite (update_cv_info_missing env cv_id _ w) by done. cbn [snd].
    by rewrite update_cv_info_missing.
Qed.

Lemma update_is_idempotent_witness :
  update_cv_info env_ok 1 [("skills", PList [PStr "rocq"])]
    (update_cv_info env_ok 1 [("skills", PList [PStr "rocq"])] w_ada).2
  = update_cv_info env_ok 1 [("skills", PList [PStr "rocq"])] w_ada.
Proof.
  apply (update_is_idempotent env_ok 1 [("skills", PList [PStr "rocq"])] w_ada).
  reflexivity.
Defined.

Lemma setattr_raises env e field value err :
  setattr env e field value = inl err -> exists message, err = OtherException message.
Proof.
  unfold setattr.
  destruct (ExtractedInfo.is_column field); [discriminate|].
  destruct (String.eqb field "__class__"); [intros [= <-]; by eexists|].
  destruct (String.eqb field "__dict__" && negb (is_dict value)); [intros [= <-]; by eexists|].
  destruct (assign env field value e); [intros [= <-]; by eexists | discriminate].
Qed.






(** The loop does not get past a key [__class__]. *)
Lemma apply_update_class env e update_data value :
  ("__class__", value) ∈ update_data ->
  exists message, apply_update env e update_data = inl (OtherException message).
Proof.
  revert e. induction update_data as [|[k v] rest IH]; intros e Hin;
    [by apply elem_of_nil in Hin|].
  rewrite apply_update_cons.
  apply elem_of_cons in Hin as [[= <- <-]|Hin]; [by eexists|].
  destruct (hasattr env k); [|by apply IH].
  destruct (setattr env e k (stored_value k v)) as [err|e'] eqn:Hs; [|by apply IH].
  destruct (setattr_raises env e k _ err Hs) as [m ->]. by eexists.
Qed.

(** X21. A mapping with a key [__class__] is never applied: the key
    passes the test of line 181, a JSON value is not a class, and line
    185 raises. Whatever the other keys are, the request answers 500 (404
    when no row carries the id) and the world is left as it was, the
    fields named before [__class__] included. *)
Theorem update_of_class_fails env cv_id update_data w value :
  ("__class__", value) ∈ update_data ->
  let r := (update_cv_info env cv_id update_data w).1 in
  (update_cv_info env cv_id update_data w).2 = w /\
  (status r = 404 <-> query_extracted_info cv_id w = None) /\
  (status r <> 404 -> status r = 500).
Proof.
  intros Hin.
  destruct (query_extracted_info cv_id w) as [[i e]|] eqn:Hq.
  - destruct (apply_update_class env e update_data value Hin) as [m He].
    rewrite (update_cv_info_raises env cv_id update_data w i e _ Hq He).
    cbn. split; [done|]. split; [split; discriminate | done].
  - rewrite (update_cv_info_missing env cv_id _ w) by done. cbn. by split.
Qed.

Lemma update_of_class_fails_witness :
  (update_cv_info env_ok 1 [("name", PStr "Eve"); ("__class__", PStr "x")] w_ada).2 = w_ada /\
  status (update_cv_info env_ok 1 [("name", PStr "Eve"); ("__class__", PStr "x")] w_ada).1
  = 500.
Proof.
  destruct (update_of_class_fails env_ok 1 [("name", PStr "Eve"); ("__class__", PStr "x")]
              w_ada (PStr "x")) as (Hw & _ & Hs).
  - apply list_elem_of_further, list_elem_of_here.
  - split; [exact Hw | apply Hs; discriminate].
Defined.

(** X12. An upload does not disturb the records already stored: whatever
    the outcome of the upload, a record that [get_cv_analysis] returned
    before is returned unchanged afterwards. *)
Theorem upload_leaves_stored_records env file user_id w cv_id view :
  (get_cv_analysis cv_id w).1 = inr view ->
  (get_cv_analysis cv_id (upload_cv env file user_id w).2).1 = inr view.
Proof.
  intros Hv. destruct (get_cv_analysis_inr cv_id w view Hv) as (f & i & e & Hf & Hq).
  rewrite <- Hv. apply get_cv_analysis_queries.
  - destruct (upload_cv_tables_grow env file user_id w) as (_ & (cs & Hcs & _) & _).
    unfold query_cv_file in *. rewrite Hcs.
    destruct (list_find _ (cv_files w)) as [[j g]|] eqn:Hfind; [|discriminate].
    by rewrite (list_find_app_l _ _ _ _ _ Hfind).
  - destruct (upload_cv_tables_grow env file user_id w) as (_ & _ & (es & Hes & _)).
    unfold query_extracted_info in *. rewrite Hes.
    by rewrite (list_find_app_l _ _ _ _ _ Hq), Hq.
Qed.

Lemma upload_leaves_stored_records_witness :
  (get_cv_analysis 1 (upload_cv env_ok file_bob None w_ada).2).1
  = inr (fetched_view file_ada cv_ada w_empty).
Proof.
  apply (upload_leaves_stored_records env_ok file_bob None w_ada 1
           (fetched_view file_ada cv_ada w_empty)).
  reflexivity.
Defined.

(** ** File ids *)

Lemma find_by_own_id {A} (id_of : A -> Z) (l : list A) (x : A) :
  NoDup (id_of <$> l) -> x ∈ l ->
  snd <$> list_find (fun y => id_of y = id_of x) l = Some x.
Proof.
  induction l as [|y l IH]; intros Hnd Hx; [by apply elem_of_nil in Hx|].
  rewrite fmap_cons in Hnd. apply NoDup_cons in Hnd as [Hy Hnd].
  cbn [list_find]. destruct (decide (id_of y = id_of x)) as [Heq|Hne].
  - apply elem_of_cons in Hx as [->|Hx]; [reflexivity|].
    exfalso. apply Hy. rewrite Heq. by apply list_elem_of_fmap_2.
  - apply elem_of_cons in Hx as [->|Hx]; [done|].
    specialize (IH Hnd Hx). destruct (list_find _ l) as [[j z]|]; by simplify_eq/=.
Qed.

Lemma next_id_positive ids : 0 < next_id ids.
Proof.
  unfold next_id. assert (0 <= foldr Z.max 0 ids) by (induction ids; simpl; lia). lia.
Qed.

Lemma ids_after_append ids :
  NoDup ids -> Forall (fun x => 0 < x) ids ->
  NoDup (ids ++ [next_id ids]) /\ Forall (fun x => 0 < x) (ids ++ [next_id ids]).
Proof.
  intros Hnd Hpos. split.
  - apply NoDup_app. split; [exact Hnd|]. split; [|apply NoDup_singleton].
    intros x Hx Hx'. apply list_elem_of_singleton in Hx'.
    pose proof (next_id_above ids) as Ha. rewrite Forall_forall in Ha.
    specialize (Ha x Hx). lia.
  - apply Forall_app. split; [exact Hpos|].
    constructor; [apply next_id_positive | constructor].
Qed.

Lemma reachable_cv_ids w :
  reachable w ->
  NoDup (CVFile.id <$> cv_files w) /\ Forall (fun x => 0 < x) (CVFile.id <$> cv_files w).
Proof.
  induction 1 as [w Hf _|env file user_id w _ IH|env cv_id update_data w _ IH].
  - rewrite Hf. split; constructor.
  - destruct (upload_cv_outcome env file user_id w) as [_ H].
    destruct H as [(_ & Hf & _)|[(text & ? & _ & _ & Hf & _)|
                    (text & ? & _ & _ & _ & _ & Hf & _)]];
      rewrite Hf; try exact IH.
    all: rewrite fmap_app;
      change (CVFile.id <$> [stored_cv_file file user_id text w])
        with [next_id (CVFile.id <$> cv_files w)];
      apply ids_after_append; apply IH.
  - destruct (update_cv_info_tables env cv_id update_data w) as (_ & _ & Hf & _).
    by rewrite Hf.
Qed.

(** X13. In every world the writing handlers produce from empty tables,
    the ids of the file records are positive and pairwise distinct, so a
    stored file record is the one the query by its own id returns. *)
Theorem stored_file_found_by_id w cv :
  reachable w -> cv ∈ cv_files w ->
  0 < CVFile.id cv /\
  NoDup (CVFile.id <$> cv_files w) /\
  query_cv_file (CVFile.id cv) w = Some cv.
Proof.
  intros Hr Hcv. destruct (reachable_cv_ids w Hr) as [Hnd Hpos].
  split; [|split; [exact Hnd|]].
  - rewrite Forall_forall in Hpos. apply Hpos. by apply list_elem_of_fmap_2.
  - unfold query_cv_file. by apply (find_by_own_id CVFile.id).
Qed.

Lemma stored_file_found_by_id_witness :
  query_cv_file 2 w_ada_bob = Some (stored_cv_file file_bob None "bob" w_ada).
Proof.
  apply (stored_file_found_by_id w_ada_bob (stored_cv_file file_bob None "bob" w_ada)).
  - apply reach_upload, reach_upload, reach_init; reflexivity.
  - vm_compute. apply list_elem_of_further, list_elem_of_here.
Defined.

(** ** A file record without extracted information *)

(** X14. When an upload has committed the file record and not the
    extracted-info record, the request answers 500, and fetching the new
    file id answers 404 "Extracted information not found" (provided no
    older row carries that id): the stored file cannot be fetched. *)
Theorem fetch_after_half_upload env file user_id w :
  query_extracted_info (next_id (CVFile.id <$> cv_files w)) w = None ->
  cv_files (upload_cv env file user_id w).2 <> cv_files w ->
  extracted_info (upload_cv env file user_id w).2 = extracted_info w ->
  status (upload_cv env file user_id w).1 = 500 /\
  get_cv_analysis (next_id (CVFile.id <$> cv_files w)) (upload_cv env file user_id w).2
  = (inl (HTTPException 404 "Extracted information not found"),
     (upload_cv env file user_id w).2).
Proof.
  intros Hq Hf Hi. destruct (upload_cv_outcome env file user_id w) as [_ H].
  destruct H as [(_ & Hf' & _)|[(text & m & [msg He] & _ & Hf' & _)|
                  (text & cv_data & _ & _ & _ & _ & _ & Hi' & _)]].
  - done.
  - split; [by rewrite He|].
    unfold get_cv_analysis, mbind, M_bind, mret, M_ret, bind, ret, raise, get_world, lift.
    rewrite (query_cv_file_stored file user_id text w _ Hf').
    unfold query_extracted_info in *. by rewrite Hi, Hq.
  - rewrite Hi' in Hi. apply (f_equal length) in Hi.
    rewrite length_app in Hi. simpl in Hi. lia.
Qed.

Lemma fetch_after_half_upload_witness :
  get_cv_analysis 1 w_file_only
  = (inl (HTTPException 404 "Extracted information not found"), w_file_only).
Proof.
  apply (fetch_after_half_upload env_info_commit_fails file_ada None w_empty);
    [reflexivity | discriminate | reflexivity].
Defined.

(** ** What a fetch returns besides the CandidateRecord *)

(** X16. Fetching the record a successful upload created returns the
    file's metadata: the id of the upload response, the file name as
    sent, the number of bytes uploaded as size, and the extracted-info id
    of the upload response; both timestamps are the time of the upload.
    As before, no older row may carry the new file id. *)
Theorem fetch_returns_file_metadata env file user_id w r w' :
  query_extracted_info (next_id (CVFile.id <$> cv_files w)) w = None ->
  upload_cv env file user_id w = (inr r, w') ->
  exists view,
    get_cv_analysis (response_cv_id r) w' = (inr view, w') /\
    item (item view "cv_file") "id" = item r "cv_file_id" /\
    item (item view "cv_file") "filename" = PStr (UploadFile.filename file) /\
    item (item view "cv_file") "file_size"
      = PInt (Z.of_nat (length (UploadFile.content file))) /\
    item (item view "cv_file") "uploaded_at" = PInt (now w) /\
    item (item view "extracted_info") "id" = item r "extracted_info_id" /\
    item (item view "extracted_info") "created_at" = PInt (now w).
Proof.
  intros Hq Hu.
  destruct (upload_cv_returns env file user_id w r w' Hu)
    as (text & cv_data & -> & _ & _ & Hf & Hi).
  exists (fetched_view file cv_data w). split.
  - change (response_cv_id (upload_response cv_data w))
      with (next_id (CVFile.id <$> cv_files w)).
    by apply (get_cv_analysis_stored file user_id text).
  - repeat split; reflexivity.
Qed.

Lemma fetch_returns_file_metadata_witness :
  exists view,
    get_cv_analysis 1 w_ada = (inr view, w_ada) /\
    item (item view "cv_file") "id" = PInt 1 /\
    item (item view "cv_file") "filename" = PStr "ada.pdf" /\
    item (item view "cv_file") "file_size" = PInt 4 /\
    item (item view "cv_file") "uploaded_at" = PInt 1700000000 /\
    item (item view "extracted_info") "id" = PInt 1 /\
    item (item view "extracted_info") "created_at" = PInt 1700000000.
Proof.
  apply (fetch_returns_file_metadata env_ok file_ada None w_empty
           (upload_response cv_ada w_empty) w_ada); reflexivity.
Defined.

(** X17. A successful upload appends an extracted-info row whose
    [raw_data] column is JSON text that decodes to the [data] of the
    upload response, and whose [cv_file_id] is the [cv_file_id] of the
    response. *)
Theorem upload_stores_raw_data env file user_id w r w' :
  upload_cv env file user_id w = (inr r, w') ->
  exists e,
    extracted_info w' = extracted_info w ++ [e] /\
    ExtractedInfo.getattr e "cv_file_id" = item r "cv_file_id" /\
    json_loads (ExtractedInfo.getattr e "raw_data") = inr (item r "data").
Proof.
  intros Hu.
  destruct (upload_cv_returns env file user_id w r w' Hu)
    as (text & cv_data & -> & _ & _ & _ & Hi).
  exists (stored_info cv_data w). split; [exact Hi|]. split; [reflexivity|].
  change (ExtractedInfo.getattr (stored_info cv_data w) "raw_data")
    with (PStr (Json.dumps (PDict cv_data))).
  unfold json_loads. by rewrite JsonFacts.loads_dumps.
Qed.

Lemma upload_stores_raw_data_witness :
  exists e,
    extracted_info w_ada = extracted_info w_empty ++ [e] /\
    ExtractedInfo.getattr e "cv_file_id" = PInt 1 /\
    json_loads (ExtractedInfo.getattr e "raw_data") = inr (PDict cv_ada).
Proof.
  apply (upload_stores_raw_data env_ok file_ada None w_empty
           (upload_response cv_ada w_empty) w_ada). reflexivity.
Defined.

(** ** The answer of a fetch in any world *)

Lemma loads_or_empty_raises x e :
  loads_or_empty x = inl e -> exists message, e = OtherException message.
Proof.
  unfold loads_or_empty, json_loads.
  destruct (truthy x); [|discriminate].
  destruct x as [| | |s| |]; try (intros [= <-]; by eexists).
  destruct (Json.loads s); [discriminate|]. intros [= <-]. by eexists.
Qed.

(** X18. [get_cv_analysis] never changes the world. It answers 404 "CV
    not found" when no file record has the id, whether or not extracted
    information exists for it; 404 "Extracted information not found"
    when the file record has no extracted-info row; and 404 in no other
    case. What it returns is built from the two rows the queries select,
    the list-valued columns decoded. It has no other status than 200, 404
    and 500. *)
Theorem get_cv_analysis_answers cv_id w :
  let r := (get_cv_analysis cv_id w).1 in
  (get_cv_analysis cv_id w).2 = w /\
  (query_cv_file cv_id w = None -> r = inl (HTTPException 404 "CV not found")) /\
  (query_cv_file cv_id w <> None -> query_extracted_info cv_id w = None ->
   r = inl (HTTPException 404 "Extracted information not found")) /\
  (status r = 404 <->
   query_cv_file cv_id w = None \/ query_extracted_info cv_id w = None) /\
  (forall view, r = inr view ->
     exists f i e, query_cv_file cv_id w = Some f /\
                   query_extracted_info cv_id w = Some (i, e) /\
                   view = view_of f e) /\
  (status r = 200 \/ status r = 404 \/ status r = 500).
Proof.
  unfold get_cv_analysis, mbind, M_bind, mret, M_ret, bind, ret, raise, get_world, lift,
    view_of, decoded.
  destruct (query_cv_file cv_id w) as [f|];
    [|cbn; split; [done|]; split; [done|]; split; [done|];
      split; [split; auto|]; split; [discriminate | tauto]].
  destruct (query_extracted_info cv_id w) as [[i e]|];
    [|cbn; split; [done|]; split; [done|]; split; [done|];
      split; [split; auto|]; split; [discriminate | tauto]].
  destruct (loads_or_empty (ExtractedInfo.getattr e "education")) as [e1|x1] eqn:H1;
    cbn [fst snd];
    [apply loads_or_empty_raises in H1 as [m ->]; cbn; split; [done|];
     split; [done|]; split; [done|]; split; [split; [discriminate | intros [H|H]; discriminate H]|];
     split; [discriminate | tauto] |].
  destruct (loads_or_empty (ExtractedInfo.getattr e "experience")) as [e2|x2] eqn:H2;
    cbn [fst snd];
    [apply loads_or_empty_raises in H2 as [m ->]; cbn; split; [done|];
     split; [done|]; split; [done|]; split; [split; [discriminate | intros [H|H]; discriminate H]|];
     split; [discriminate | tauto] |].
  destruct (loads_or_empty (ExtractedInfo.getattr e "skills")) as [e3|x3] eqn:H3;
    cbn [fst snd];
    [apply loads_or_empty_raises in H3 as [m ->]; cbn; split; [done|];
     split; [done|]; split; [done|]; split; [split; [discriminate | intros [H|H]; discriminate H]|];
     split; [discriminate | tauto] |].
  destruct (loads_or_empty (ExtractedInfo.getattr e "languages")) as [e4|x4] eqn:H4;
    cbn [fst snd];
    [apply loads_or_empty_raises in H4 as [m ->]; cbn; split; [done|];
     split; [done|]; split; [done|]; split; [split; [discriminate | intros [H|H]; discriminate H]|];
     split; [discriminate | tauto] |].
  cbn. split; [done|]. split; [done|]. split; [done|].
  split; [split; [discriminate | intros [H|H]; discriminate H]|].
  split; [|tauto]. intros view [= <-]. exists f, i, e. by rewrite H1, H2, H3, H4.
Qed.

(** X19. A list-valued column that is [None] or the empty string reads
    as the empty list: when both rows are found and each list-valued
    column is either empty or JSON text, the fetch returns, and every
    empty column shows as [[]]. *)
Theorem fetch_reads_empty_column_as_empty_list cv_id w f i e :
  query_cv_file cv_id w = Some f ->
  query_extracted_info cv_id w = Some (i, e) ->
  Forall (fun field =>
            truthy (ExtractedInfo.getattr e field) = false \/
            json_text (ExtractedInfo.getattr e field)) list_fields ->
  get_cv_analysis cv_id w = (inr (view_of f e), w) /\
  (forall field, field ∈ list_fields ->
     truthy (ExtractedInfo.getattr e field) = false ->
     fetched_field (view_of f e) field = PList []).
Proof.
  intros Hf Hq Hall.
  assert (forall field, field ∈ list_fields ->
            loads_or_empty (ExtractedInfo.getattr e field)
            = inr (decoded (ExtractedInfo.getattr e field))) as Hdec.
  { intros field Hfield. rewrite Forall_forall in Hall.
    destruct (Hall field Hfield) as [Ht|Hj]; [|by apply loads_or_empty_decoded].
    unfold decoded, loads_or_empty. by rewrite Ht. }
  split.
  - unfold get_cv_analysis, mbind, M_bind, mret, M_ret, bind, ret, raise, get_world, lift.
    rewrite Hf, Hq.
    rewrite !Hdec by (unfold list_fields; rewrite !elem_of_cons; tauto).
    reflexivity.
  - intros field Hfield Ht.
    assert (field ∈ candidate_fields) as Hc
      by (revert Hfield; unfold list_fields, candidate_fields;
          rewrite !elem_of_cons, !elem_of_nil; tauto).
    rewrite (fetched_field_view_of f e field Hc).
    rewrite bool_decide_eq_true_2 by done.
    unfold decoded, loads_or_empty. by rewrite Ht.
Qed.

Lemma fetch_reads_empty_column_as_empty_list_witness :
  fetched_field
    (view_of (stored_cv_file file_ada None "ada" w_empty)
       (ExtractedInfo.new (PInt 1) (PStr "Ada") (PStr "ada@x.org") (PStr "") (PStr "")
          PNone (PStr (Json.dumps (PList []))) (PStr (Json.dumps (PList [PStr "coq"])))
          (PStr (Json.dumps (PList []))) PNone)) "education"
  = PList [].
Proof.
  refine (proj2 (fetch_reads_empty_column_as_empty_list 1 w_blank_education
                   (stored_cv_file file_ada None "ada" w_empty) 0%nat _
                   eq_refl eq_refl _) "education" _ eq_refl).
  - unfold list_fields.
    constructor; [by left|]. constructor; [right; apply json_text_dumps|].
    constructor; [right; apply json_text_dumps|].
    constructor; [right; apply json_text_dumps | constructor].
  - unfold list_fields. rewrite !elem_of_cons. tauto.
Defined.

(** ** The file type check *)

Section Endswith.
#[local] Arguments String.append !_ _ : simpl nomatch.

Lemma substring_all s : String.substring 0 (String.length s) s = s.
Proof. induction s as [|c s IH]; simpl; [reflexivity | by rewrite IH]. Qed.

Lemma substring_skip p t m :
  String.substring (String.length p) m (p +:+ t) = String.substring 0 m t.
Proof. induction p as [|c p IH]; simpl; [reflexivity | exact IH]. Qed.

Lemma substring_split n s :
  (n <= String.length s)%nat ->
  s = String.substring 0 n s +:+ String.substring n (String.length s - n) s.
Proof.
  revert s. induction n as [|n IH]; intros s Hn.
  - rewrite Nat.sub_0_r, substring_all. by destruct s.
  - destruct s as [|c s]; simpl in *; [lia|]. rewrite <- IH by lia. reflexivity.
Qed.

Lemma endswith_iff s suffix :
  endswith s suffix = true <-> exists stem, s = stem +:+ suffix.
Proof.
  unfold endswith. rewrite andb_true_iff, Nat.leb_le, String.eqb_eq. split.
  - intros [Hlen Heq].
    exists (String.substring 0 (String.length s - String.length suffix) s).
    pose proof (substring_split (String.length s - String.length suffix) s) as Hsplit.
    replace (String.length s - (String.length s - String.length suffix))%nat
      with (String.length suffix) in Hsplit by lia.
    rewrite Heq in Hsplit. apply Hsplit. lia.
  - intros [stem ->]. rewrite JsonFacts.length_append. split; [lia|].
    replace (String.length stem + String.length suffix - String.length suffix)%nat
      with (String.length stem) by lia.
    by rewrite substring_skip, substring_all.
Qed.
End Endswith.

(** X15. A file name passes the type check exactly when its lower-cased
    form is some text, possibly empty, followed by [.pdf], [.doc] or
    [.docx]: the letter case of the name does not matter, and only the
    end of the name is looked at. *)
Theorem supported_type_iff filename :
  supported_type filename = true <->
  exists stem ext, ext ∈ supported_extensions /\ lower filename = stem +:+ ext.
Proof.
  unfold supported_type, supported_extensions. cbv zeta.
  rewrite !orb_true_iff, !endswith_iff. split.
  - intros [[[stem H]|[stem H]]|[stem H]]; exists stem; eexists; (split; [|exact H]);
      rewrite !elem_of_cons; tauto.
  - intros (stem & ext & Hext & H). rewrite !elem_of_cons, elem_of_nil in Hext.
    destruct Hext as [->|[->|[->|[]]]]; eauto.
Qed.

(** ** The pipeline of an upload *)

(** X20. The [data] of a successful upload is what the field extractor
    returns for the text the text extractor returns for the saved bytes,
    read at the path the handler wrote them to; that text is what the new
    file record keeps as [extracted_text], with the file name as sent and
    the number of bytes as size. *)
Theorem upload_runs_extraction_pipeline env file user_id w r w' :
  upload_cv env file user_id w = (inr r, w') ->
  exists text cv_data f,
    extract_text_from_file env (upload_path file) (UploadFile.content file) = inr text /\
    analyze_cv_text env text = inr cv_data /\
    item r "data" = PDict cv_data /\
    cv_files w' = cv_files w ++ [f] /\
    item r "cv_file_id" = PInt (CVFile.id f) /\
    CVFile.extracted_text f = text /\
    CVFile.filename f = UploadFile.filename file /\
    CVFile.file_path f = upload_path file /\
    CVFile.file_size f = Z.of_nat (length (UploadFile.content file)).
Proof.
  intros Hu. destruct (upload_cv_outcome env file user_id w) as [_ H].
  rewrite Hu in H. cbn [fst snd] in H.
  destruct H as [([m H] & _)|[(? & ? & [m H] & _)|
                  (text & cv_data & _ & Ht & Hd & _ & Hf & _ & [[H _]|[[m H] _]])]];
    try discriminate H.
  injection H as ->.
  exists text, cv_data, (stored_cv_file file user_id text w).
  by repeat (split; [done|]).
Qed.

Lemma upload_runs_extraction_pipeline_witness :
  exists text cv_data f,
    extract_text_from_file env_ok (upload_path file_bob) (UploadFile.content file_bob)
      = inr text /\
    analyze_cv_text env_ok text = inr cv_data /\
    item (upload_response cv_bob w_ada) "data" = PDict cv_data /\
    cv_files w_ada_bob = cv_files w_ada ++ [f] /\
    item (upload_response cv_bob w_ada) "cv_file_id" = PInt (CVFile.id f) /\
    CVFile.extracted_text f = text /\
    CVFile.filename f = UploadFile.filename file_bob /\
    CVFile.file_path f = upload_path file_bob /\
    CVFile.file_size f = Z.of_nat (length (UploadFile.content file_bob)).
Proof.
  apply (upload_runs_extraction_pipeline env_ok file_bob None w_ada
           (upload_response cv_bob w_ada) w_ada_bob). reflexivity.
Defined.
